(** * Orchestrator.py: the pipeline driver of LXC-Threat-API-Mapping

    A shallow embedding of [src/Orchestrator/Orchestrator.py] and the
    properties its specification states about it.

    The program is a sequence of effects on the outside world: it tests
    paths, creates a directory, reads one JSON file, prints lines and starts
    child processes.  The outside world is an interface ([Runtime]); the four
    functions of the source ([run_command], [ensure_mapping],
    [visualize_calls], [main]) are programs in a small monad that threads the
    file system, collects the events of the run in order and stops at the
    first [sys.exit] or uncaught exception.

    Conventions.
    - A Python [str] is a Rocq [string].  The characters the program looks
      for ([^], [$], [\], [/], [.]) are ASCII, and an ASCII byte never occurs
      inside a multi-byte UTF-8 sequence, so stripping and splitting bytes
      agrees with stripping and splitting code points.
    - [os.path] is [posixpath].
    - Command-line parsing ([argparse]) is not modelled: [main] takes the
      five parsed arguments. *)

From stdpp Require Import base strings list gmap.
From Stdlib Require Import Ascii ZArith Lia.

Set Warnings "-register-all".
Local Open Scope Z_scope.

(** ** Python strings *)

Module PyStr.

(** [len(s)] *)
Definition len (s : string) : Z := Z.of_nat (String.length s).

(** The first [n] characters, and what follows them. *)
Fixpoint take (n : nat) (s : string) : string :=
  match n, s with
  | S n', String c r => String c (take n' r)
  | _, _ => EmptyString
  end.

Fixpoint drop (n : nat) (s : string) : string :=
  match n, s with
  | S n', String _ r => drop n' r
  | _, _ => s
  end.

(** A slice bound as Python resolves it against a string of length [n]:
    a negative bound counts from the end, and both are clipped to [0..n]. *)
Definition bound (n i : Z) : nat :=
  Z.to_nat (if i <? 0 then Z.max 0 (n + i) else Z.min i n).

(** [s[i:]], [s[:j]] and [s[i:j]] *)
Definition from (i : Z) (s : string) : string := drop (bound (len s) i) s.
Definition upto (j : Z) (s : string) : string := take (bound (len s) j) s.
Definition slice (i j : Z) (s : string) : string :=
  let lo := bound (len s) i in
  let hi := bound (len s) j in
  take (hi - lo)%nat (drop lo s).

(** [s.rfind(c)] for a one-character [c]: the highest index of [c] in [s],
    or [-1]. *)
Fixpoint rfind (c : ascii) (s : string) : Z :=
  match s with
  | EmptyString => -1
  | String a r =>
      let k := rfind c r in
      if 0 <=? k then k + 1 else if Ascii.eqb a c then 0 else -1
  end.

(** [s.startswith(c)] and [s.endswith(c)] for a one-character [c]. *)
Definition startswith (c : ascii) (s : string) : bool :=
  match s with
  | String a _ => Ascii.eqb a c
  | EmptyString => false
  end.

Fixpoint endswith (c : ascii) (s : string) : bool :=
  match s with
  | EmptyString => false
  | String a EmptyString => Ascii.eqb a c
  | String _ r => endswith c r
  end.

(** [sep.join(l)] *)
Definition join (sep : string) (l : list string) : string := String.concat sep l.

(** Membership of a character in the argument of [strip]. *)
Fixpoint in_chars (chars : string) (c : ascii) : bool :=
  match chars with
  | EmptyString => false
  | String a r => Ascii.eqb c a || in_chars r c
  end.

(** [s.lstrip(chars)], [s.rstrip(chars)] and [s.strip(chars)]: the longest
    prefix, suffix, or both, made of characters of [chars], removed. *)
Fixpoint lstrip (chars s : string) : string :=
  match s with
  | EmptyString => EmptyString
  | String c r => if in_chars chars c then lstrip chars r else s
  end.

Fixpoint rstrip (chars s : string) : string :=
  match s with
  | EmptyString => EmptyString
  | String c r =>
      match rstrip chars r with
      | EmptyString => if in_chars chars c then EmptyString else String c EmptyString
      | r' => String c r'
      end
  end.

Definition strip (chars s : string) : string := rstrip chars (lstrip chars s).

(** Every character of [s] is one of [chars]. *)
Fixpoint all_in (chars s : string) : bool :=
  match s with
  | EmptyString => true
  | String c r => in_chars chars c && all_in chars r
  end.

(** The first and the last character of a string, when it has one. *)
Definition first (s : string) : option ascii :=
  match s with
  | String a _ => Some a
  | EmptyString => None
  end.

Fixpoint last (s : string) : option ascii :=
  match s with
  | EmptyString => None
  | String a EmptyString => Some a
  | String _ r => last r
  end.

End PyStr.

(** ** [os.path] on POSIX *)

Module PosixPath.

Definition sep : ascii := "/"%char.
Definition extsep : ascii := "."%char.

(** [posixpath.join(a, b)] on two strings: an absolute [b] replaces [a];
    otherwise [b] is appended, after a separator unless [a] is empty or ends
    with one. *)
Definition join (a b : string) : string :=
  if PyStr.startswith sep b then b
  else if String.eqb a "" || PyStr.endswith sep a then a +:+ b
  else a +:+ "/" +:+ b.

(** [posixpath.isabs(p)] *)
Definition isabs (p : string) : bool := PyStr.startswith sep p.

(** [posixpath.basename(p)]: [i = p.rfind('/') + 1; return p[i:]] *)
Definition basename (p : string) : string :=
  let i := PyStr.rfind sep p + 1 in
  PyStr.from i p.

(** The loop of [genericpath._splitext] that skips the leading dots of the
    file name: [n] bounds the iterations left. *)
Fixpoint splitext_scan (p : string) (dotIndex filenameIndex : Z) (n : nat)
  : string * string :=
  match n with
  | O => (p, PyStr.upto 0 p)
  | S n' =>
      if filenameIndex <? dotIndex then
        if negb (String.eqb (PyStr.slice filenameIndex (filenameIndex + 1) p) ".")
        then (PyStr.upto dotIndex p, PyStr.from dotIndex p)
        else splitext_scan p dotIndex (filenameIndex + 1) n'
      else (p, PyStr.upto 0 p)
  end.

(** [posixpath.splitext(p)]: split at the last dot of the last component,
    unless that component consists of leading dots up to it. *)
Definition splitext (p : string) : string * string :=
  let sepIndex := PyStr.rfind sep p in
  let dotIndex := PyStr.rfind extsep p in
  if sepIndex <? dotIndex
  then splitext_scan p dotIndex (sepIndex + 1) (Z.to_nat (dotIndex - sepIndex))
  else (p, PyStr.upto 0 p).

End PosixPath.

(** ** Python values and exceptions *)

(** The values [json.load] returns.  A float is its IEEE 754 binary64 bit
    pattern; the program only ever tests one for truth. *)
Inductive pyobj : Type :=
  | PyNone
  | PyBool (b : bool)
  | PyInt (z : Z)
  | PyFloat (bits : Z)
  | PyStr (s : string)
  | PyList (l : list pyobj)
  | PyDict (d : gmap string pyobj).

(** The exceptions of a run: the two the interpreter raises on a value of
    the wrong type, and those of the outside world, by class name. *)
Inductive pyexc : Type :=
  | TypeError
  | AttributeError
  | OtherError (name : string).

(** [bool(v)]: [None], [False], zero (of either sign, for a float), and the
    empty string, list and dict are false. *)
Definition truthy (v : pyobj) : bool :=
  match v with
  | PyNone => false
  | PyBool b => b
  | PyInt z => negb (z =? 0)
  | PyFloat bits => negb (Z.land bits (2 ^ 63 - 1) =? 0)
  | PyStr s => negb (String.eqb s "")
  | PyList l => match l with [] => false | _ => true end
  | PyDict d => negb (Nat.eqb (size d) 0)
  end.

(** [v.get(key, dflt)]: only a dict has the method. *)
Definition py_get (v : pyobj) (key : string) (dflt : pyobj) : pyexc + pyobj :=
  match v with
  | PyDict d => inr (default dflt (d !! key))
  | _ => inl AttributeError
  end.

(** [os.fspath(v)] for the values at hand: a [str] is a path, nothing else is. *)
Definition py_fspath (v : pyobj) : pyexc + string :=
  match v with
  | PyStr s => inr s
  | _ => inl TypeError
  end.

(** [os.path.join(a, b)] on values. *)
Definition py_os_path_join (a b : pyobj) : pyexc + string :=
  match py_fspath a, py_fspath b with
  | inr a', inr b' => inr (PosixPath.join a' b')
  | inl e, _ => inl e
  | _, inl e => inl e
  end.

(** [v.strip(chars)]: only a [str] has the method. *)
Definition py_strip (v : pyobj) (chars : string) : pyexc + string :=
  match v with
  | PyStr s => inr (PyStr.strip chars s)
  | _ => inl AttributeError
  end.

(** The one-character strings of a string, as iterating it yields them. *)
Fixpoint str_chars (s : string) : list pyobj :=
  match s with
  | EmptyString => []
  | String c r => PyStr (String c EmptyString) :: str_chars r
  end.

(** [iter(v)]: the items a [for] loop over [v] visits.  A dict yields its
    keys and a string its characters; a number, a boolean and [None] are not
    iterable. *)
Definition py_iter (v : pyobj) : pyexc + list pyobj :=
  match v with
  | PyList l => inr l
  | PyDict d => inr ((λ kv, PyStr kv.1) <$> map_to_list d)
  | PyStr s => inr (str_chars s)
  | _ => inl TypeError
  end.

(** ** The outside world *)

(** What the program asks of its surroundings.  [FS] is the state of the
    world between two steps (the file system and whatever else the child
    processes depend on).
    - [fs_exists fs p] is [os.path.exists(p)];
    - [fs_makedirs fs p] is [os.makedirs(p)]: an exception or the new state;
    - [fs_read_text fs p] opens [p] for reading as UTF-8 and reads it whole;
    - [spawn fs cmd cwd] is [subprocess.run(cmd, cwd=cwd)]: an exception when
      the process cannot be started, else its [returncode] and the state it
      leaves;
    - [json_loads] is [json.loads];
    - [sys_executable] is [sys.executable].
    A directory that [os.makedirs] has made exists. *)
Class Runtime (FS : Type) := {
  fs_exists : FS → string → bool;
  fs_makedirs : FS → string → pyexc + FS;
  fs_read_text : FS → string → pyexc + string;
  spawn : FS → list string → option string → pyexc + (Z * FS);
  json_loads : string → pyexc + pyobj;
  sys_executable : string;
  fs_makedirs_exists :
    ∀ fs p fs', fs_makedirs fs p = inr fs' → fs_exists fs' p = true;
}.

(** What a run leaves for an observer, in order: the lines on the two
    streams and the child processes, each with the command, the working
    directory, the state of the world it started in, and how it ended. *)
Inductive event (FS : Type) : Type :=
  | Stdout (line : string)
  | Stderr (line : string)
  | Spawn (cmd : list string) (cwd : option string) (before : FS)
          (result : pyexc + Z).
Arguments Stdout {FS} line.
Arguments Stderr {FS} line.
Arguments Spawn {FS} cmd cwd before result.

(** How a computation ends: with a value, in [sys.exit(code)], or in an
    exception nobody catches. *)
Inductive outcome (A : Type) : Type :=
  | Return (a : A)
  | SystemExit (code : Z)
  | Raised (e : pyexc).
Arguments Return {A} a.
Arguments SystemExit {A} code.
Arguments Raised {A} e.

(** A program: from the state of the world to an outcome, the state it
    leaves and the events it caused. *)
Definition prog (FS A : Type) : Type := FS → outcome A * FS * list (event FS).

#[export] Instance prog_ret {FS} : MRet (prog FS) :=
  λ A (a : A) fs, (Return a, fs, []).

#[export] Instance prog_bind {FS} : MBind (prog FS) :=
  λ A B (k : A → prog FS B) (m : prog FS A) fs,
    match m fs with
    | (Return a, fs1, evs1) =>
        match k a fs1 with
        | (o, fs2, evs2) => (o, fs2, evs1 ++ evs2)
        end
    | (SystemExit c, fs1, evs1) => (SystemExit c, fs1, evs1)
    | (Raised e, fs1, evs1) => (Raised e, fs1, evs1)
    end.

(** The exit status the operating system sees: 0 after a normal return, the
    low eight bits of the argument of [sys.exit], 1 after a traceback. *)
Definition exit_status {A} (o : outcome A) : Z :=
  match o with
  | Return _ => 0
  | SystemExit c => c mod 256
  | Raised _ => 1
  end.

Section Program.
Context {FS : Type} `{!Runtime FS}.

Definition print (line : string) : prog FS unit :=
  λ fs, (Return tt, fs, [Stdout line]).

Definition print_stderr (line : string) : prog FS unit :=
  λ fs, (Return tt, fs, [Stderr line]).

Definition sys_exit {A} (code : Z) : prog FS A :=
  λ fs, (SystemExit code, fs, []).

Definition raise {A} (e : pyexc) : prog FS A :=
  λ fs, (Raised e, fs, []).

(** A pure step that may raise. *)
Definition lift {A} (r : pyexc + A) : prog FS A :=
  match r with
  | inl e => raise e
  | inr a => mret a
  end.

Definition os_path_exists (p : string) : prog FS bool :=
  λ fs, (Return (fs_exists fs p), fs, []).

Definition os_makedirs (p : string) : prog FS unit :=
  λ fs, match fs_makedirs fs p with
        | inl e => (Raised e, fs, [])
        | inr fs' => (Return tt, fs', [])
        end.

(** [with open(p, 'r', encoding='utf-8') as f: data = json.load(f)] *)
Definition json_load (p : string) : prog FS pyobj :=
  λ fs, match fs_read_text fs p with
        | inl e => (Raised e, fs, [])
        | inr text =>
            match json_loads text with
            | inl e => (Raised e, fs, [])
            | inr data => (Return data, fs, [])
            end
        end.

(** [subprocess.run(cmd, cwd=cwd).returncode] *)
Definition subprocess_run (cmd : list string) (cwd : option string) : prog FS Z :=
  λ fs, match spawn fs cmd cwd with
        | inl e => (Raised e, fs, [Spawn cmd cwd fs (inl e)])
        | inr (returncode, fs') => (Return returncode, fs', [Spawn cmd cwd fs (inr returncode)])
        end.

(** [for x in l: body(x)] *)
Fixpoint for_each {A} (l : list A) (body : A → prog FS unit) : prog FS unit :=
  match l with
  | [] => mret tt
  | x :: r => body x ;; for_each r body
  end.

(** *** [run_command] (lines 8-20) *)
Definition run_command (cmd : list string) (cwd : option string) : prog FS unit :=
  print ("Running: " +:+ PyStr.join " " cmd) ;;
  returncode ← subprocess_run cmd cwd ;
  if negb (returncode =? 0) then
    print_stderr ("Command failed: " +:+ PyStr.join " " cmd) ;;
    sys_exit returncode
  else mret tt.

(** *** [ensure_mapping] (lines 23-63), stage by stage *)

Definition extract_cmd (sbom_path risk_db : string) : list string :=
  [sys_executable; "nvd_api_extractor.py"; "--sbom"; sbom_path; "--out"; risk_db].

Definition enrich_cmd (risk_db enriched_db : string) : list string :=
  [sys_executable; "llm_api_enricher.py"; risk_db; "--out"; enriched_db].

Definition map_cmd (code_path enriched_db threat_map : string) : list string :=
  [sys_executable; "threat_api_mapper.py"; "--code"; code_path;
   "--risk"; enriched_db; "--out"; threat_map].

(** Lines 35-42. *)
Definition stage_extract (lxc_path sbom_path risk_db : string) : prog FS unit :=
  found ← os_path_exists risk_db ;
  if negb found then run_command (extract_cmd sbom_path risk_db) (Some lxc_path)
  else print ("Found existing risk DB: " +:+ risk_db).

(** Lines 45-52. *)
Definition stage_enrich (lxc_path risk_db enriched_db : string) : prog FS unit :=
  found ← os_path_exists enriched_db ;
  if negb found then run_command (enrich_cmd risk_db enriched_db) (Some lxc_path)
  else print ("Found existing enriched DB: " +:+ enriched_db).

(** Lines 55-63. *)
Definition stage_map (lxc_path code_path enriched_db threat_map : string) : prog FS unit :=
  found ← os_path_exists threat_map ;
  if negb found then run_command (map_cmd code_path enriched_db threat_map) (Some lxc_path)
  else print ("Found existing threat map: " +:+ threat_map).

Definition ensure_mapping
  (lxc_path code_path sbom_path risk_db enriched_db threat_map : string) : prog FS unit :=
  stage_extract lxc_path sbom_path risk_db ;;
  stage_enrich lxc_path risk_db enriched_db ;;
  stage_map lxc_path code_path enriched_db threat_map.

(** *** [visualize_calls] (lines 66-104) *)

(** The command of line 97. *)
Definition visualize_cmd (ast_path abs_file target_name out_png : string) : list string :=
  [sys_executable; PosixPath.join ast_path "astvisualizer.py";
   "-f"; abs_file; "--target"; target_name; "-o"; out_png].

(** The body of the loop, lines 84-104. *)
Definition visualize_entry (ast_path output_dir : string) (entry : pyobj) : prog FS unit :=
  file_path ← lift (py_get entry "file" PyNone) ;
  api_pattern ← lift (py_get entry "api" PyNone) ;
  if negb (truthy file_path) || negb (truthy api_pattern) then mret tt
  else
    code_root ← lift (py_get entry "code_root" (PyStr "")) ;
    abs_file ← lift (py_os_path_join code_root file_path) ;
    file_name ← lift (py_fspath file_path) ;
    let basename := (PosixPath.splitext (PosixPath.basename file_name)).1 in
    target_name ← lift (py_strip api_pattern "^$\") ;
    let out_png := PosixPath.join output_dir (basename +:+ "_" +:+ target_name +:+ ".png") in
    run_command (visualize_cmd ast_path abs_file target_name out_png) None ;;
    print ("Generated diagram: " +:+ out_png).

Definition visualize_calls (ast_path threat_map output_dir : string) : prog FS unit :=
  found ← os_path_exists output_dir ;
  (if negb found then os_makedirs output_dir else mret tt) ;;
  data ← json_load threat_map ;
  entries ← lift (py_iter data) ;
  for_each entries (visualize_entry ast_path output_dir).

(** *** [main] (lines 107-137), after [parser.parse_args()] *)

(** The line of line 137. *)
Definition done_line : string :=
  "워크플로우 완료. threat_map.json과 시각화 이미지를 확인하세요.".

Definition main (lxc astviz code sbom out_dir : string) : prog FS unit :=
  let risk_db := PosixPath.join lxc "risk_db.json" in
  let enriched := PosixPath.join lxc "risk_db_llm.json" in
  let threat_map := PosixPath.join lxc "threat_map.json" in
  ensure_mapping lxc code sbom risk_db enriched threat_map ;;
  visualize_calls astviz threat_map out_dir ;;
  print done_line.

End Program.

(** ** Observations on a run *)

(** The commands of the child processes of a run, in order. *)
Fixpoint spawned {FS} (evs : list (event FS)) : list (list string) :=
  match evs with
  | [] => []
  | Spawn cmd _ _ _ :: r => cmd :: spawned r
  | _ :: r => spawned r
  end.

(** An event that is not a child process ending in a non-zero status. *)
Definition spawn_ok {FS} (ev : event FS) : Prop :=
  match ev with
  | Spawn _ _ _ (inr c) => c = 0
  | _ => True
  end.

(** The shape of a run that fails fast: as long as it has not exited, no
    child process has ended in a non-zero status; when it exits with [c], its
    last two events are a child process that ended in [c], which is not zero,
    and the diagnostic naming its command. *)
Definition fail_fast {FS A} (r : outcome A * FS * list (event FS)) : Prop :=
  match r with
  | (SystemExit c, _, evs) =>
      c ≠ 0 ∧
      ∃ pre cmd cwd before,
        evs = pre ++ [Spawn cmd cwd before (inr c);
                      Stderr ("Command failed: " +:+ PyStr.join " " cmd)] ∧
        Forall spawn_ok pre
  | (_, _, evs) => Forall spawn_ok evs
  end.

Definition FailFast {FS A} (m : prog FS A) : Prop := ∀ fs, fail_fast (m fs).

(** The stages of the pipeline, with the artifact each one produces and
    the line it prints when it finds the artifact in place. *)
Inductive stage : Type := Extract | Enrich | Map.

Record paths : Type := {
  lxc_path : string;
  code_path : string;
  sbom_path : string;
  risk_db : string;
  enriched_db : string;
  threat_map : string;
}.

Definition stage_artifact (c : paths) (s : stage) : string :=
  match s with
  | Extract => risk_db c
  | Enrich => enriched_db c
  | Map => threat_map c
  end.

Definition stage_found_line (c : paths) (s : stage) : string :=
  match s with
  | Extract => "Found existing risk DB: " +:+ risk_db c
  | Enrich => "Found existing enriched DB: " +:+ enriched_db c
  | Map => "Found existing threat map: " +:+ threat_map c
  end.

Definition run_stage {FS} `{!Runtime FS} (c : paths) (s : stage) : prog FS unit :=
  match s with
  | Extract => stage_extract (lxc_path c) (sbom_path c) (risk_db c)
  | Enrich => stage_enrich (lxc_path c) (risk_db c) (enriched_db c)
  | Map => stage_map (lxc_path c) (code_path c) (enriched_db c) (threat_map c)
  end.

(** The shape the three stages share: an existence test, then a command
    or a line. *)
Definition gate {FS} `{!Runtime FS} (p : string) (cmd : list string)
  (cwd : option string) (line : string) : prog FS unit :=
  found ← os_path_exists p ;
  if negb found then run_command cmd cwd else print line.

(** An artifact a tool cannot use: no file, or a file with nothing in it. *)
Definition missing_or_empty {FS} `{!Runtime FS} (fs : FS) (p : string) : Prop :=
  fs_exists fs p = false ∨ fs_read_text fs p = inr "".

(** A tool that leaves something at [artifact] whenever it is run as [cmd]
    in [cwd] and ends in status 0. *)
Definition writes_output {FS} `{!Runtime FS}
  (cmd : list string) (cwd : option string) (artifact : string) : Prop :=
  ∀ fs fs', spawn fs cmd cwd = inr (0, fs') → fs_exists fs' artifact = true.

(** A threat entry as the specification's data model has it: [file] and
    [api] are non-empty strings, [code_root] is a string or absent (then it
    counts as the empty string). *)
Definition valid_entry (d : gmap string pyobj) (file_path api code_root : string) : Prop :=
  d !! "file" = Some (PyStr file_path) ∧ file_path ≠ "" ∧
  d !! "api" = Some (PyStr api) ∧ api ≠ "" ∧
  (d !! "code_root" = Some (PyStr code_root) ∨
   d !! "code_root" = None ∧ code_root = "").

(** A field that is missing or empty: absent from the entry, [null], or an
    empty string, list or object. *)
Definition absent_or_empty (field : option pyobj) : Prop :=
  field = None ∨ field = Some PyNone ∨ field = Some (PyStr "") ∨
  field = Some (PyList []) ∨ field = Some (PyDict ∅).

(** The base name, the target identifier and the image path of an entry
    (lines 91, 93 and 94). *)
Definition entry_base_name (file_path : string) : string :=
  (PosixPath.splitext (PosixPath.basename file_path)).1.

Definition entry_target (api : string) : string := PyStr.strip "^$\" api.

Definition entry_out_png (output_dir file_path api : string) : string :=
  PosixPath.join output_dir
    (entry_base_name file_path +:+ "_" +:+ entry_target api +:+ ".png").

(** ** Further observations *)

(** The two lines [run_command] writes about a command. *)
Definition running_line (cmd : list string) : string :=
  "Running: " +:+ PyStr.join " " cmd.

Definition failed_line (cmd : list string) : string :=
  "Command failed: " +:+ PyStr.join " " cmd.

(** Every event of every run of [m] satisfies [P]. *)
Definition Emits {FS A} (P : event FS → Prop) (m : prog FS A) : Prop :=
  ∀ fs, Forall P (m fs).2.

(** Every child process of the trace comes right after the line that
    announces its command; [prev] is the line just before the trace, if the
    event before it was a line on standard output. *)
Fixpoint announced_after {FS} (prev : option string) (evs : list (event FS)) : Prop :=
  match evs with
  | [] => True
  | Stdout line :: rest => announced_after (Some line) rest
  | Stderr _ :: rest => announced_after None rest
  | Spawn cmd _ _ _ :: rest =>
      prev = Some (running_line cmd) ∧ announced_after None rest
  end.

(** The pieces a trace is made of: a line, or a command announced and run
    to status 0. *)
Inductive step {FS} : list (event FS) → Prop :=
  | step_line line : step [Stdout line]
  | step_command cmd cwd before :
      step [Stdout (running_line cmd); Spawn cmd cwd before (inr 0)].

(** How a trace ends, by the outcome of the run: with nothing more after a
    return or an exception of the program itself; with a command that could
    not be started; or with a command that ended in a non-zero status,
    followed by its diagnostic. *)
Inductive ending {FS A} : outcome A → list (event FS) → Prop :=
  | ending_return a : ending (Return a) []
  | ending_raised e : ending (Raised e) []
  | ending_unstarted cmd cwd before e :
      ending (Raised e) [Stdout (running_line cmd); Spawn cmd cwd before (inl e)]
  | ending_failed cmd cwd before c :
      c ≠ 0 →
      ending (SystemExit c)
        [Stdout (running_line cmd); Spawn cmd cwd before (inr c);
         Stderr (failed_line cmd)].

Definition shaped {FS A} (r : outcome A * FS * list (event FS)) : Prop :=
  ∃ steps tail,
    r.2 = concat steps ++ tail ∧ Forall step steps ∧ ending r.1.1 tail.

Definition Shaped {FS A} (m : prog FS A) : Prop := ∀ fs, shaped (m fs).

(** The command of a stage. *)
Definition stage_cmd {FS} `{!Runtime FS} (c : paths) (s : stage) : list string :=
  match s with
  | Extract => extract_cmd (sbom_path c) (risk_db c)
  | Enrich => enrich_cmd (risk_db c) (enriched_db c)
  | Map => map_cmd (code_path c) (enriched_db c) (threat_map c)
  end.

(** The command the loop body starts for an entry, if it starts one: the
    entry is an object, [file] and [api] are non-empty strings and
    [code_root] is a string or absent. *)
Definition entry_cmd {FS} `{!Runtime FS} (ast out : string) (entry : pyobj)
  : option (list string) :=
  match entry with
  | PyDict d =>
      match d !! "file", d !! "api", default (PyStr "") (d !! "code_root") with
      | Some (PyStr f), Some (PyStr a), PyStr cr =>
          if String.eqb f "" || String.eqb a "" then None
          else Some (visualize_cmd ast (PosixPath.join cr f) (entry_target a)
                       (entry_out_png out f a))
      | _, _, _ => None
      end
  | _ => None
  end.

(** Child processes never remove what exists: a path that exists when a
    process starts exists when it has ended. *)
Definition keeps_files {FS} `{!Runtime FS} : Prop :=
  ∀ (fs fs' : FS) cmd cwd c p,
    spawn fs cmd cwd = inr (c, fs') → fs_exists fs p = true → fs_exists fs' p = true.

(** The processes of the workflow: a stage tool run in the repository
    directory, or the visualizer run in the caller's directory. *)
Definition workflow_process {FS} `{!Runtime FS}
  (lxc astviz code sbom : string) (ev : event FS) : Prop :=
  match ev with
  | Spawn cmd cwd _ _ =>
      cwd = Some lxc ∧
      (cmd = extract_cmd sbom (PosixPath.join lxc "risk_db.json") ∨
       cmd = enrich_cmd (PosixPath.join lxc "risk_db.json")
               (PosixPath.join lxc "risk_db_llm.json") ∨
       cmd = map_cmd code (PosixPath.join lxc "risk_db_llm.json")
               (PosixPath.join lxc "threat_map.json")) ∨
      cwd = None ∧
      ∃ abs_file target_name out_png,
        cmd = visualize_cmd astviz abs_file target_name out_png
  | _ => True
  end.

(** Every child process of the trace that ended in status 0 is followed at
    once by the line [Generated diagram: <path>], where [<path>] is the last
    argument of its command. *)
Fixpoint reported {FS} (evs : list (event FS)) : Prop :=
  match evs with
  | [] => True
  | Spawn cmd _ _ (inr 0) :: rest =>
      match rest with
      | Stdout line :: rest' =>
          line = "Generated diagram: " +:+ default "" (last cmd) ∧ reported rest'
      | _ => False
      end
  | _ :: rest => reported rest
  end.


(** ** A small world to run the program in

    Files and directories by path; tools that are told by script name what
    status to end in and what to write to the path after [--out] or [-o];
    JSON texts with their parse given in a table. *)

Module Sim.

Inductive node : Type := File (content : string) | Dir.

Record config : Type := {
  status : string → Z;
  writes : string → option string;
  json : list (string * pyobj);
}.

Fixpoint out_path (cmd : list string) : option string :=
  match cmd with
  | [] => None
  | flag :: rest =>
      if String.eqb flag "--out" || String.eqb flag "-o" then head rest
      else out_path rest
  end.

Definition exists_ (fs : gmap string node) (p : string) : bool :=
  match fs !! p with
  | Some _ => true
  | None => false
  end.

Definition makedirs (fs : gmap string node) (p : string) : pyexc + gmap string node :=
  match fs !! p with
  | Some _ => inl (OtherError "FileExistsError")
  | None => inr (<[p := Dir]> fs)
  end.

Definition read_text (fs : gmap string node) (p : string) : pyexc + string :=
  match fs !! p with
  | Some (File content) => inr content
  | Some Dir => inl (OtherError "IsADirectoryError")
  | None => inl (OtherError "FileNotFoundError")
  end.

Definition run (c : config) (fs : gmap string node) (cmd : list string)
  (cwd : option string) : pyexc + (Z * gmap string node) :=
  match cmd with
  | _ :: script :: _ =>
      if status c script =? 0 then
        match writes c script, out_path cmd with
        | Some content, Some p => inr (0, <[p := File content]> fs)
        | _, _ => inr (0, fs)
        end
      else inr (status c script, fs)
  | _ => inl (OtherError "FileNotFoundError")
  end.

Fixpoint loads (table : list (string * pyobj)) (text : string) : pyexc + pyobj :=
  match table with
  | [] => inl (OtherError "JSONDecodeError")
  | (t, v) :: rest => if String.eqb t text then inr v else loads rest text
  end.

Lemma makedirs_exists fs p fs' : makedirs fs p = inr fs' → exists_ fs' p = true.
Proof.
  unfold makedirs, exists_. destruct (fs !! p) eqn:E; [discriminate|].
  intros [= <-]. by rewrite lookup_insert_eq.
Qed.

Definition runtime (c : config) : Runtime (gmap string node) := {|
  fs_exists := exists_;
  fs_makedirs := makedirs;
  fs_read_text := read_text;
  spawn := run c;
  json_loads := loads (json c);
  sys_executable := "python3";
  fs_makedirs_exists := makedirs_exists;
|}.

(** Every tool succeeds and writes its output; the mapper's threat map has
    one entry without [api], one without [code_root], and one whose [file]
    is absolute. *)
Definition threats : pyobj :=
  PyList [
    PyDict {[ "file" := PyStr "app/broken.py" ]};
    PyDict (<["file" := PyStr "app/utils.py"]> {[ "api" := PyStr "^eval$" ]});
    PyDict (<["file" := PyStr "/srv/app/run.py"]>
            (<["api" := PyStr "^os\.system$"]> {[ "code_root" := PyStr "/home/ci" ]}))
  ].

Definition tools_ok : config := {|
  status := λ _, 0;
  writes := λ script,
    if String.eqb script "nvd_api_extractor.py" then Some "{}"
    else if String.eqb script "llm_api_enricher.py" then Some "{}"
    else if String.eqb script "threat_api_mapper.py" then Some "THREATS"
    else Some "PNG";
  json := [("THREATS", threats); ("[]", PyList [])];
|}.

(** The extraction tool ends in status 3. *)
Definition extractor_fails : config := {|
  status := λ script, if String.eqb script "nvd_api_extractor.py" then 3 else 0;
  writes := writes tools_ok;
  json := json tools_ok;
|}.

(** The extraction tool ends in status 0 and writes nothing. *)
Definition extractor_writes_nothing : config := {|
  status := λ _, 0;
  writes := λ script,
    if String.eqb script "nvd_api_extractor.py" then None else writes tools_ok script;
  json := json tools_ok;
|}.

End Sim.

(** * Properties *)

(** ** The library functions on samples *)

Example strip_anchors : PyStr.strip "^$\" "^os\.system$" = "os\.system".
Proof. reflexivity. Qed.

Example splitext_samples :
  PosixPath.splitext "utils.py" = ("utils", ".py") /\
  PosixPath.splitext "a.tar.gz" = ("a.tar", ".gz") /\
  PosixPath.splitext ".bashrc" = (".bashrc", "") /\
  PosixPath.splitext "..x" = ("..x", "") /\
  PosixPath.splitext "dir.d/name" = ("dir.d/name", "") /\
  PosixPath.splitext "a." = ("a", ".").
Proof. repeat split; reflexivity. Qed.

Example basename_samples :
  PosixPath.basename "app/utils.py" = "utils.py" /\
  PosixPath.basename "utils.py" = "utils.py" /\
  PosixPath.basename "app/" = "" /\
  PosixPath.basename "/a/b/c" = "c".
Proof. repeat split; reflexivity. Qed.

Example join_samples :
  PosixPath.join "" "app/utils.py" = "app/utils.py" /\
  PosixPath.join "/srv/code" "app/utils.py" = "/srv/code/app/utils.py" /\
  PosixPath.join "/srv/code/" "app/utils.py" = "/srv/code/app/utils.py" /\
  PosixPath.join "/srv/code" "/etc/passwd" = "/etc/passwd".
Proof. repeat split; reflexivity. Qed.

(** ** Stripping *)

Lemma str_app_nil (s : string) : "" +:+ s = s.
Proof. reflexivity. Qed.

Lemma str_app_cons (a : ascii) (s t : string) :
  String a s +:+ t = String a (s +:+ t).
Proof. reflexivity. Qed.

Lemma str_app_nil_r (s : string) : s +:+ "" = s.
Proof.
  induction s as [|a s IH]; [done|].
  change (String a (s +:+ "") = String a s). by rewrite IH.
Qed.

Section Strip.
Variable chars : string.

Lemma lstrip_split s :
  ∃ pre, s = pre +:+ PyStr.lstrip chars s ∧ PyStr.all_in chars pre = true.
Proof.
  induction s as [|a s [pre [Hs Hpre]]]; simpl.
  - by exists "".
  - destruct (PyStr.in_chars chars a) eqn:Ha.
    + exists (String a pre). split.
      * change (String a s = String a (pre +:+ PyStr.lstrip chars s)). by f_equal.
      * simpl. by rewrite Ha.
    + by exists "".
Qed.

Lemma lstrip_first s c :
  PyStr.first (PyStr.lstrip chars s) = Some c → PyStr.in_chars chars c = false.
Proof.
  induction s as [|a s IH]; simpl; [done|].
  destruct (PyStr.in_chars chars a) eqn:Ha; [done|].
  simpl. by intros [= <-].
Qed.

Lemma lstrip_fixed s :
  (∀ c, PyStr.first s = Some c → PyStr.in_chars chars c = false) →
  PyStr.lstrip chars s = s.
Proof.
  destruct s as [|a s]; simpl; [done|].
  intros H. by rewrite (H a).
Qed.

Lemma rstrip_split s :
  ∃ post, s = PyStr.rstrip chars s +:+ post ∧ PyStr.all_in chars post = true.
Proof.
  induction s as [|a s [post [Hs Hpost]]]; simpl.
  - by exists "".
  - destruct (PyStr.rstrip chars s) as [|b r] eqn:E.
    + rewrite str_app_nil in Hs. subst post.
      destruct (PyStr.in_chars chars a) eqn:Ha.
      * exists (String a s). simpl. by rewrite Ha, Hpost.
      * by exists s.
    + exists post. split; [|done].
      change (String a s = String a (String b r +:+ post)). by f_equal.
Qed.

Lemma rstrip_last s c :
  PyStr.last (PyStr.rstrip chars s) = Some c → PyStr.in_chars chars c = false.
Proof.
  induction s as [|a s IH]; simpl; [done|].
  destruct (PyStr.rstrip chars s) as [|b r] eqn:E.
  - destruct (PyStr.in_chars chars a) eqn:Ha; simpl; [done|].
    by intros [= <-].
  - done.
Qed.

Lemma rstrip_first s c :
  PyStr.first (PyStr.rstrip chars s) = Some c → PyStr.first s = Some c.
Proof.
  destruct s as [|a s]; simpl; [done|].
  destruct (PyStr.rstrip chars s) as [|b r].
  - by destruct (PyStr.in_chars chars a).
  - done.
Qed.

Lemma rstrip_rstrip s :
  PyStr.rstrip chars (PyStr.rstrip chars s) = PyStr.rstrip chars s.
Proof.
  induction s as [|a s IH]; simpl; [done|].
  destruct (PyStr.rstrip chars s) as [|b r] eqn:E.
  - destruct (PyStr.in_chars chars a) eqn:Ha; simpl; [done|]. by rewrite Ha.
  - change (PyStr.rstrip chars (String a (String b r)))
      with (match PyStr.rstrip chars (String b r) with
            | EmptyString =>
                if PyStr.in_chars chars a then EmptyString else String a EmptyString
            | r' => String a r'
            end).
    by rewrite IH.
Qed.

Lemma strip_first s c :
  PyStr.first (PyStr.strip chars s) = Some c → PyStr.in_chars chars c = false.
Proof.
  unfold PyStr.strip. intros H. by eapply lstrip_first, rstrip_first.
Qed.

Lemma strip_strip s :
  PyStr.strip chars (PyStr.strip chars s) = PyStr.strip chars s.
Proof.
  unfold PyStr.strip at 1.
  rewrite lstrip_fixed by (intros c; apply strip_first).
  apply rstrip_rstrip.
Qed.

Lemma strip_split s :
  ∃ pre post,
    s = pre +:+ PyStr.strip chars s +:+ post ∧
    PyStr.all_in chars pre = true ∧ PyStr.all_in chars post = true.
Proof.
  destruct (lstrip_split s) as [pre [Hs Hpre]].
  destruct (rstrip_split (PyStr.lstrip chars s)) as [post [Hl Hpost]].
  exists pre, post. unfold PyStr.strip. by rewrite <- Hl.
Qed.

End Strip.

Lemma in_anchor_chars c :
  PyStr.in_chars "^$\" c = true ↔ (c = "^" ∨ c = "$" ∨ c = "\")%char.
Proof.
  simpl. rewrite orb_false_r, !orb_true_iff, !Ascii.eqb_eq. tauto.
Qed.

(** ** Searching and slicing *)

Lemma len_nonneg s : 0 ≤ PyStr.len s.
Proof. unfold PyStr.len. lia. Qed.

Lemma len_cons a s : PyStr.len (String a s) = PyStr.len s + 1.
Proof. unfold PyStr.len. simpl. lia. Qed.

Lemma rfind_range c s : -1 ≤ PyStr.rfind c s < PyStr.len s.
Proof.
  induction s as [|a s IH].
  - unfold PyStr.len. simpl. lia.
  - rewrite len_cons. simpl.
    destruct (0 <=? PyStr.rfind c s) eqn:E; [lia|].
    destruct (Ascii.eqb a c); pose proof (len_nonneg s); lia.
Qed.

Lemma rfind_none_startswith c s :
  PyStr.rfind c s = -1 → PyStr.startswith c s = false.
Proof.
  destruct s as [|a s]; simpl; [done|].
  pose proof (rfind_range c s).
  destruct (0 <=? PyStr.rfind c s) eqn:E; [lia|].
  by destruct (Ascii.eqb a c).
Qed.

(** Nothing after the last occurrence is an occurrence. *)
Lemma rfind_drop_after c s :
  PyStr.rfind c (PyStr.drop (Z.to_nat (PyStr.rfind c s + 1)) s) = -1.
Proof.
  induction s as [|a s IH]; [done|].
  pose proof (rfind_range c s) as Hr.
  cbn [PyStr.rfind].
  destruct (0 <=? PyStr.rfind c s) eqn:E.
  - apply Z.leb_le in E.
    replace (Z.to_nat (PyStr.rfind c s + 1 + 1))
      with (S (Z.to_nat (PyStr.rfind c s + 1))) by lia.
    exact IH.
  - apply Z.leb_gt in E.
    destruct (Ascii.eqb a c) eqn:Ea.
    + change (PyStr.rfind c s = -1). lia.
    + change (PyStr.rfind c (String a s) = -1).
      cbn [PyStr.rfind]. rewrite Ea.
      destruct (0 <=? PyStr.rfind c s) eqn:E'; [|done].
      apply Z.leb_le in E'. lia.
Qed.

(** The last occurrence is an occurrence, and the last. *)
Lemma rfind_drop_at c s :
  0 ≤ PyStr.rfind c s →
  ∃ r, PyStr.drop (Z.to_nat (PyStr.rfind c s)) s = String c r ∧ PyStr.rfind c r = -1.
Proof.
  induction s as [|a s IH]; [simpl; lia|].
  pose proof (rfind_range c s) as Hr.
  cbn [PyStr.rfind].
  destruct (0 <=? PyStr.rfind c s) eqn:E.
  - apply Z.leb_le in E. intros _.
    replace (Z.to_nat (PyStr.rfind c s + 1)) with (S (Z.to_nat (PyStr.rfind c s))) by lia.
    exact (IH E).
  - apply Z.leb_gt in E.
    destruct (Ascii.eqb a c) eqn:Ea; [|lia].
    intros _. apply Ascii.eqb_eq in Ea. subst a.
    exists s. split; [done|lia].
Qed.

Lemma bound_inside n i : 0 ≤ i ≤ n → PyStr.bound n i = Z.to_nat i.
Proof.
  intros H. unfold PyStr.bound.
  destruct (i <? 0) eqn:E; [apply Z.ltb_lt in E; lia|].
  f_equal. lia.
Qed.

Lemma str_take_drop n s : PyStr.take n s +:+ PyStr.drop n s = s.
Proof.
  revert s. induction n as [|n IH]; intros [|a s]; try done.
  cbn [PyStr.take PyStr.drop]. rewrite str_app_cons. by rewrite IH.
Qed.

Lemma upto_from i s : PyStr.upto i s +:+ PyStr.from i s = s.
Proof. apply str_take_drop. Qed.

Lemma upto_0 s : PyStr.upto 0 s = "".
Proof.
  unfold PyStr.upto. rewrite bound_inside by (pose proof (len_nonneg s); lia).
  by destruct s.
Qed.

Lemma first_take n s c :
  PyStr.first (PyStr.take n s) = Some c → PyStr.first s = Some c.
Proof. by destruct n, s. Qed.

Lemma startswith_first c s :
  PyStr.startswith c s = true ↔ PyStr.first s = Some c.
Proof.
  destruct s as [|a s]; simpl; [done|].
  rewrite Ascii.eqb_eq. split; congruence.
Qed.

(** ** Paths *)

Lemma basename_no_sep p : PyStr.rfind PosixPath.sep (PosixPath.basename p) = -1.
Proof.
  unfold PosixPath.basename, PyStr.from.
  pose proof (rfind_range PosixPath.sep p).
  rewrite bound_inside by lia.
  apply rfind_drop_after.
Qed.

Lemma splitext_scan_cases p d f n :
  PosixPath.splitext_scan p d f n = (p, "") ∨
  PosixPath.splitext_scan p d f n = (PyStr.upto d p, PyStr.from d p).
Proof.
  revert f. induction n as [|n IH]; intros f; simpl.
  - left. by rewrite upto_0.
  - destruct (f <? d); [|left; by rewrite upto_0].
    destruct (negb _); [by right|apply IH].
Qed.

(** The bound [splitext] gives the loop is enough: a larger one changes
    nothing. *)
Lemma splitext_scan_bound p d f n m :
  (Z.to_nat (d - f) ≤ n)%nat → (Z.to_nat (d - f) ≤ m)%nat →
  PosixPath.splitext_scan p d f n = PosixPath.splitext_scan p d f m.
Proof.
  revert f m. induction n as [|n IH]; intros f [|m] Hn Hm; simpl; try done.
  - destruct (f <? d) eqn:E; [apply Z.ltb_lt in E; lia|done].
  - destruct (f <? d) eqn:E; [apply Z.ltb_lt in E; lia|done].
  - destruct (f <? d) eqn:E; [|done]. apply Z.ltb_lt in E.
    destruct (negb _); [done|]. apply IH; lia.
Qed.

Lemma splitext_cases p :
  PosixPath.splitext p = (p, "") ∨
  0 ≤ PyStr.rfind PosixPath.extsep p ∧
  PosixPath.splitext p =
    (PyStr.upto (PyStr.rfind PosixPath.extsep p) p,
     PyStr.from (PyStr.rfind PosixPath.extsep p) p).
Proof.
  unfold PosixPath.splitext.
  pose proof (rfind_range PosixPath.sep p).
  destruct (_ <? _) eqn:E; [|left; by rewrite upto_0].
  apply Z.ltb_lt in E.
  destruct (splitext_scan_cases p (PyStr.rfind PosixPath.extsep p)
              (PyStr.rfind PosixPath.sep p + 1)
              (Z.to_nat (PyStr.rfind PosixPath.extsep p - PyStr.rfind PosixPath.sep p)))
    as [->| ->]; [by left|right]. split; [lia|done].
Qed.

(** The two halves of [splitext] make up the path, and the second is empty
    or a dot followed by no other dot. *)
Lemma splitext_app p :
  (PosixPath.splitext p).1 +:+ (PosixPath.splitext p).2 = p.
Proof.
  destruct (splitext_cases p) as [->|[_ ->]]; simpl.
  - apply str_app_nil_r.
  - apply upto_from.
Qed.

Lemma splitext_ext p :
  (PosixPath.splitext p).2 = "" ∨
  ∃ r, (PosixPath.splitext p).2 = String PosixPath.extsep r ∧
       PyStr.rfind PosixPath.extsep r = -1.
Proof.
  destruct (splitext_cases p) as [->|[Hd ->]]; simpl; [by left|right].
  unfold PyStr.from.
  pose proof (rfind_range PosixPath.extsep p).
  rewrite bound_inside by lia.
  by apply rfind_drop_at.
Qed.

Lemma base_name_relative file_path :
  PyStr.startswith PosixPath.sep (entry_base_name file_path) = false.
Proof.
  unfold entry_base_name.
  pose proof (basename_no_sep file_path) as Hb.
  apply rfind_none_startswith in Hb.
  destruct (splitext_cases (PosixPath.basename file_path)) as [->|[_ ->]]; simpl; [done|].
  destruct (PyStr.startswith _ (PyStr.upto _ _)) eqn:E; [|done].
  apply startswith_first in E. apply first_take in E.
  apply startswith_first in E. congruence.
Qed.

Lemma startswith_app c s t :
  PyStr.startswith c t = false → s = "" ∨ PyStr.startswith c s = false →
  PyStr.startswith c (s +:+ t) = false.
Proof.
  intros Ht [->|Hs]; [done|]. by destruct s.
Qed.

Lemma image_name_relative file_path target :
  PyStr.startswith PosixPath.sep
    (entry_base_name file_path +:+ "_" +:+ target +:+ ".png") = false.
Proof.
  pose proof (base_name_relative file_path) as Hb.
  destruct (entry_base_name file_path); [done|exact Hb].
Qed.

Lemma join_relative a b :
  PyStr.startswith PosixPath.sep b = false →
  a ≠ "" → PyStr.endswith PosixPath.sep a = false →
  PosixPath.join a b = a +:+ "/" +:+ b.
Proof.
  intros Hb Ha He. unfold PosixPath.join. rewrite Hb, He.
  destruct a; [done|]. done.
Qed.

Lemma join_absolute a b :
  PosixPath.isabs b = true → PosixPath.join a b = b.
Proof. unfold PosixPath.isabs, PosixPath.join. by intros ->. Qed.

(** ** Runs *)

Section Runs.
Context {FS : Type} `{!Runtime FS}.

Lemma bind_run {A B} (m : prog FS A) (k : A → prog FS B) fs :
  (m ≫= k) fs =
    match m fs with
    | (Return a, fs1, evs1) =>
        match k a fs1 with
        | (o, fs2, evs2) => (o, fs2, evs1 ++ evs2)
        end
    | (SystemExit c, fs1, evs1) => (SystemExit c, fs1, evs1)
    | (Raised e, fs1, evs1) => (Raised e, fs1, evs1)
    end.
Proof. reflexivity. Qed.

(** A step that returns without an event only passes its value and the
    world on. *)
Lemma bind_quiet {A B} (m : prog FS A) (k : A → prog FS B) fs a fs1 :
  m fs = (Return a, fs1, []) → (m ≫= k) fs = k a fs1.
Proof.
  intros Hm. rewrite bind_run, Hm. by destruct (k a fs1) as [[o fs2] evs2].
Qed.

Lemma bind_silent {A B} (m : prog FS A) (k : A → prog FS B) fs a :
  m fs = (Return a, fs, []) → (m ≫= k) fs = k a fs.
Proof. apply bind_quiet. Qed.

Lemma lift_inr {A B} (a : A) (k : A → prog FS B) fs :
  (lift (inr a) ≫= k) fs = k a fs.
Proof. by apply bind_silent. Qed.

(** *** Failing fast *)

Lemma fail_fast_bind {A B} (m : prog FS A) (k : A → prog FS B) :
  FailFast m → (∀ a, FailFast (k a)) → FailFast (m ≫= k).
Proof.
  intros Hm Hk fs. rewrite bind_run. specialize (Hm fs).
  destruct (m fs) as [[[a|c|e] fs1] evs1]; [|done..].
  specialize (Hk a fs1).
  destruct (k a fs1) as [[[b|c|e] fs2] evs2]; simpl in *.
  - by apply Forall_app.
  - destruct Hk as [Hc (pre & cmd & cwd & before & -> & Hpre)].
    split; [done|]. exists (evs1 ++ pre), cmd, cwd, before.
    split; [by rewrite app_assoc|by apply Forall_app].
  - by apply Forall_app.
Qed.

Lemma fail_fast_if {A} (b : bool) (m1 m2 : prog FS A) :
  FailFast m1 → FailFast m2 → FailFast (if b then m1 else m2).
Proof. by destruct b. Qed.

Lemma fail_fast_ret {A} (a : A) : FailFast (mret a : prog FS A).
Proof. intros fs. by apply Forall_nil. Qed.

Lemma fail_fast_lift {A} (r : pyexc + A) : FailFast (lift r : prog FS A).
Proof. destruct r; intros fs; by apply Forall_nil. Qed.

Lemma fail_fast_print line : FailFast (print line : prog FS unit).
Proof. intros fs. by repeat constructor. Qed.

Lemma fail_fast_exists p : FailFast (os_path_exists p : prog FS bool).
Proof. intros fs. by apply Forall_nil. Qed.

Lemma fail_fast_makedirs p : FailFast (os_makedirs p : prog FS unit).
Proof.
  intros fs. unfold os_makedirs. destruct (fs_makedirs fs p); by apply Forall_nil.
Qed.

Lemma fail_fast_json_load p : FailFast (json_load p : prog FS pyobj).
Proof.
  intros fs. unfold json_load.
  destruct (fs_read_text fs p) as [e|text]; [by apply Forall_nil|].
  destruct (json_loads text); by apply Forall_nil.
Qed.

(** What [run_command] does, by how the child process ends. *)
Lemma run_command_run cmd cwd fs :
  run_command cmd cwd fs =
    let running := Stdout ("Running: " +:+ PyStr.join " " cmd) in
    match spawn fs cmd cwd with
    | inl e => (Raised e, fs, [running; Spawn cmd cwd fs (inl e)])
    | inr (c, fs') =>
        if c =? 0 then (Return tt, fs', [running; Spawn cmd cwd fs (inr c)])
        else (SystemExit c, fs',
              [running; Spawn cmd cwd fs (inr c);
               Stderr ("Command failed: " +:+ PyStr.join " " cmd)])
    end.
Proof.
  unfold run_command, mbind, prog_bind, print, subprocess_run. cbv beta iota zeta.
  destruct (spawn fs cmd cwd) as [e|[c fs']]; [reflexivity|].
  destruct (c =? 0); reflexivity.
Qed.

Lemma fail_fast_run_command cmd cwd : FailFast (run_command cmd cwd : prog FS unit).
Proof.
  intros fs. rewrite run_command_run. cbv zeta.
  destruct (spawn fs cmd cwd) as [e|[c fs']].
  - by repeat constructor.
  - destruct (c =? 0) eqn:E.
    + apply Z.eqb_eq in E. by repeat constructor.
    + apply Z.eqb_neq in E. split; [done|].
      eexists [_], cmd, cwd, fs. split; [done|]. by repeat constructor.
Qed.

Lemma fail_fast_for_each {A} (l : list A) (body : A → prog FS unit) :
  (∀ x, FailFast (body x)) → FailFast (for_each l body).
Proof.
  intros Hbody. induction l as [|x l IH]; simpl.
  - apply fail_fast_ret.
  - apply fail_fast_bind; [apply Hbody|by intros _].
Qed.

Ltac fail_fast :=
  repeat first
    [ apply fail_fast_run_command | apply fail_fast_print | apply fail_fast_ret
    | apply fail_fast_lift | apply fail_fast_exists | apply fail_fast_makedirs
    | apply fail_fast_json_load | apply fail_fast_for_each
    | apply fail_fast_if | apply fail_fast_bind | intros ? ].

Lemma fail_fast_ensure_mapping lxc code sbom risk enriched tm :
  FailFast (ensure_mapping lxc code sbom risk enriched tm : prog FS unit).
Proof.
  unfold ensure_mapping, stage_extract, stage_enrich, stage_map. fail_fast.
Qed.

Lemma fail_fast_visualize_entry ast out entry :
  FailFast (visualize_entry ast out entry : prog FS unit).
Proof. unfold visualize_entry. fail_fast. Qed.

Lemma fail_fast_visualize_calls ast tm out :
  FailFast (visualize_calls ast tm out : prog FS unit).
Proof.
  unfold visualize_calls. fail_fast.
Qed.

Lemma fail_fast_main lxc astviz code sbom out :
  FailFast (main lxc astviz code sbom out : prog FS unit).
Proof.
  unfold main. cbv zeta. fail_fast.
Qed.

End Runs.

(** ** The process runner fails fast *)

(** C1.  In every run of the workflow, a child process that ends in a
    non-zero status [c] is the last one the run starts: the run ends in
    [sys.exit(c)], the only event after the process is the line
    [Command failed: <command>] on the error stream, and every process
    before it ended in status 0.  For a status in [1..255] the exit status
    of the workflow is [c] itself. *)
Theorem failed_command_is_fatal {FS} `{!Runtime FS}
  (lxc astviz code sbom out : string) (fs fs' : FS) (o : outcome unit)
  (evs : list (event FS)) (cmd : list string) (cwd : option string)
  (before : FS) (c : Z) :
  main lxc astviz code sbom out fs = (o, fs', evs) →
  Spawn cmd cwd before (inr c) ∈ evs →
  c ≠ 0 →
  o = SystemExit c ∧
  (∃ pre,
     evs = pre ++ [Spawn cmd cwd before (inr c);
                   Stderr ("Command failed: " +:+ PyStr.join " " cmd)] ∧
     Forall spawn_ok pre) ∧
  (0 < c < 256 → exit_status o = c).
Proof.
  intros Hrun Hin Hc.
  pose proof (fail_fast_main lxc astviz code sbom out fs) as Hff.
  rewrite Hrun in Hff.
  assert (Hquiet : Forall spawn_ok evs → False).
  { intros Hall. rewrite Forall_forall in Hall. apply Hc, (Hall _ Hin). }
  destruct o as [[]|c'|e]; simpl in Hff; [done| |done].
  destruct Hff as [_ (pre & cmd' & cwd' & before' & -> & Hpre)].
  apply elem_of_app in Hin as [Hin|Hin].
  { rewrite Forall_forall in Hpre. destruct Hc. apply (Hpre _ Hin). }
  apply elem_of_cons in Hin as [Heq|Hin].
  - injection Heq as -> -> -> ->.
    split; [done|]. split; [by exists pre|].
    intros Hrange. simpl. by apply Z.mod_small; lia.
  - apply list_elem_of_singleton in Hin. discriminate.
Qed.

Lemma failed_command_is_fatal_witness :
  let cmd := ["python3"; "nvd_api_extractor.py"; "--sbom"; "sbom.json";
              "--out"; "lxc/risk_db.json"] in
  let failed : event (gmap string Sim.node) := Spawn cmd (Some "lxc") ∅ (inr 3) in
  let diagnostic : event (gmap string Sim.node) :=
    Stderr "Command failed: python3 nvd_api_extractor.py --sbom sbom.json --out lxc/risk_db.json" in
  let evs := [Stdout "Running: python3 nvd_api_extractor.py --sbom sbom.json --out lxc/risk_db.json";
              failed; diagnostic] in
  main (Runtime0 := Sim.runtime Sim.extractor_fails)
    "lxc" "viz" "code" "sbom.json" "output" ∅ = (SystemExit 3, ∅, evs) ∧
  (SystemExit 3 = SystemExit 3 :> outcome unit) ∧
  (∃ pre, evs = pre ++ [failed; diagnostic] ∧ Forall spawn_ok pre) ∧
  (0 < 3 < 256 → exit_status (SystemExit 3 : outcome unit) = 3).
Proof.
  cbv zeta. split; [vm_compute; reflexivity|].
  apply (failed_command_is_fatal (Runtime0 := Sim.runtime Sim.extractor_fails)
           "lxc" "viz" "code" "sbom.json" "output" ∅ ∅).
  - vm_compute; reflexivity.
  - apply list_elem_of_further, list_elem_of_here.
  - lia.
Defined.

(** ** The stage gates *)

Lemma ensure_mapping_stages {FS} `{!Runtime FS} (c : paths) :
  ensure_mapping (lxc_path c) (code_path c) (sbom_path c)
    (risk_db c) (enriched_db c) (threat_map c) =
  (run_stage c Extract ;; run_stage c Enrich ;; run_stage c Map : prog FS unit).
Proof. reflexivity. Qed.

(** C2.  For each of the three stages: evaluated in a world where something
    exists at the stage's output path, the stage returns normally, starts no
    process, prints the one line that names the artifact it found, and
    leaves the world as it was, so the artifact reads as before. *)
Theorem existing_artifact_is_reused {FS} `{!Runtime FS}
  (c : paths) (s : stage) (fs : FS) :
  fs_exists fs (stage_artifact c s) = true →
  ∃ fs' evs,
    run_stage c s fs = (Return tt, fs', evs) ∧
    spawned evs = [] ∧
    evs = [Stdout (stage_found_line c s)] ∧
    fs' = fs ∧
    fs_read_text fs' (stage_artifact c s) = fs_read_text fs (stage_artifact c s).
Proof.
  intros Hfound. exists fs, [Stdout (stage_found_line c s)].
  split; [|done].
  destruct s; simpl in Hfound |- *;
    unfold stage_extract, stage_enrich, stage_map;
    rewrite (bind_silent _ _ fs true) by (unfold os_path_exists; by rewrite Hfound);
    reflexivity.
Qed.

Lemma existing_artifact_is_reused_witness :
  let c := {| lxc_path := "lxc"; code_path := "code"; sbom_path := "sbom.json";
              risk_db := "lxc/risk_db.json"; enriched_db := "lxc/risk_db_llm.json";
              threat_map := "lxc/threat_map.json" |} in
  let fs : gmap string Sim.node := {[ "lxc/risk_db_llm.json" := Sim.File "{}" ]} in
  Sim.exists_ fs "lxc/risk_db_llm.json" = true ∧
  ∃ fs' evs,
    run_stage (Runtime0 := Sim.runtime Sim.tools_ok) c Enrich fs = (Return tt, fs', evs) ∧
    spawned evs = [] ∧
    evs = [Stdout "Found existing enriched DB: lxc/risk_db_llm.json"] ∧
    fs' = fs ∧
    Sim.read_text fs' "lxc/risk_db_llm.json" = Sim.read_text fs "lxc/risk_db_llm.json".
Proof.
  cbv zeta. split; [vm_compute; reflexivity|].
  apply (existing_artifact_is_reused (Runtime0 := Sim.runtime Sim.tools_ok)
           {| lxc_path := "lxc"; code_path := "code"; sbom_path := "sbom.json";
              risk_db := "lxc/risk_db.json"; enriched_db := "lxc/risk_db_llm.json";
              threat_map := "lxc/threat_map.json" |} Enrich).
  vm_compute; reflexivity.
Defined.

Section Gates.
Context {FS : Type} `{!Runtime FS}.

(** How a sequence ends: in its first part, or in its second after the first
    returned. *)
Lemma bind_inv {A B} (m : prog FS A) (k : A → prog FS B) fs o fs' evs :
  (m ≫= k) fs = (o, fs', evs) →
  (∃ a fs1 evs1 evs2,
     m fs = (Return a, fs1, evs1) ∧ k a fs1 = (o, fs', evs2) ∧ evs = evs1 ++ evs2) ∨
  (∃ o1, m fs = (o1, fs', evs) ∧ ∀ a, o1 ≠ Return a).
Proof.
  rewrite bind_run.
  destruct (m fs) as [[[a|c|e] fs1] evs1].
  - destruct (k a fs1) as [[o2 fs2] evs2] eqn:Ek. intros [= <- <- <-].
    left. by exists a, fs1, evs1, evs2.
  - intros [= <- <- <-]. right. by exists (SystemExit c).
  - intros [= <- <- <-]. right. by exists (Raised e).
Qed.

Lemma gate_run p cmd cwd line fs :
  gate p cmd cwd line fs =
    if fs_exists fs p then (Return tt, fs, [Stdout line]) else run_command cmd cwd fs.
Proof.
  unfold gate. rewrite (bind_silent _ _ fs (fs_exists fs p)) by reflexivity.
  by destruct (fs_exists fs p).
Qed.

(** The only process a gate starts is its command, in the world the gate
    was entered in. *)
Lemma gate_spawns p cmd cwd line fs o fs1 evs cmd' cwd' before r :
  gate p cmd cwd line fs = (o, fs1, evs) →
  Spawn cmd' cwd' before r ∈ evs → cmd' = cmd ∧ before = fs.
Proof.
  rewrite gate_run, run_command_run. cbv zeta.
  destruct (fs_exists fs p).
  { intros [= <- <- <-] Hin. apply list_elem_of_singleton in Hin. discriminate. }
  destruct (spawn fs cmd cwd) as [e|[c fs2]]; [|destruct (c =? 0)];
    intros [= <- <- <-] Hin;
    repeat (apply elem_of_cons in Hin as [Heq|Hin];
            [try discriminate; by injection Heq as -> -> -> ->|]);
    by apply not_elem_of_nil in Hin.
Qed.

(** After a gate whose tool keeps its promise, the artifact exists. *)
Lemma gate_done p cmd cwd line fs fs1 evs :
  writes_output cmd cwd p →
  gate p cmd cwd line fs = (Return tt, fs1, evs) →
  fs_exists fs1 p = true.
Proof.
  intros Hw. rewrite gate_run, run_command_run. cbv zeta.
  destruct (fs_exists fs p) eqn:Hp; [by intros [= <- <-]|].
  destruct (spawn fs cmd cwd) as [e|[c fs2]] eqn:Hs; [done|].
  destruct (c =? 0) eqn:Hc; [|done].
  apply Z.eqb_eq in Hc. subst c. intros [= <- <-]. by eapply Hw.
Qed.

End Gates.

(** C3 (as amended).  Suppose the extraction and enrichment tools, when they
    end in status 0, leave their output artifact in existence.  Then in every
    run of the pipeline the enrichment tool is only started in a world where
    the risk database exists, and the mapping tool only in a world where the
    enriched database exists.  Only existence is established: the artifact
    may be empty. *)
Theorem stage_input_exists {FS} `{!Runtime FS}
  (c : paths) (fs fs' : FS) (o : outcome unit) (evs : list (event FS)) :
  writes_output (extract_cmd (sbom_path c) (risk_db c)) (Some (lxc_path c)) (risk_db c) →
  writes_output (enrich_cmd (risk_db c) (enriched_db c)) (Some (lxc_path c)) (enriched_db c) →
  ensure_mapping (lxc_path c) (code_path c) (sbom_path c)
    (risk_db c) (enriched_db c) (threat_map c) fs = (o, fs', evs) →
  (∀ cwd before r,
     Spawn (enrich_cmd (risk_db c) (enriched_db c)) cwd before r ∈ evs →
     fs_exists before (risk_db c) = true) ∧
  (∀ cwd before r,
     Spawn (map_cmd (code_path c) (enriched_db c) (threat_map c)) cwd before r ∈ evs →
     fs_exists before (enriched_db c) = true).
Proof.
  intros Hextract Henrich Hrun.
  change (ensure_mapping _ _ _ _ _ _) with
    (gate (risk_db c) (extract_cmd (sbom_path c) (risk_db c)) (Some (lxc_path c))
       ("Found existing risk DB: " +:+ risk_db c) ;;
     gate (enriched_db c) (enrich_cmd (risk_db c) (enriched_db c)) (Some (lxc_path c))
       ("Found existing enriched DB: " +:+ enriched_db c) ;;
     gate (threat_map c) (map_cmd (code_path c) (enriched_db c) (threat_map c))
       (Some (lxc_path c)) ("Found existing threat map: " +:+ threat_map c) : prog FS unit)
    in Hrun.
  apply bind_inv in Hrun as [([] & fs1 & evs1 & evs23 & H1 & Hrun & ->)|(o1 & H1 & _)].
  - pose proof (gate_done _ _ _ _ _ _ _ Hextract H1) as Hrisk.
    apply bind_inv in Hrun as [([] & fs2 & evs2 & evs3 & H2 & H3 & ->)|(o2 & H2 & _)].
    + pose proof (gate_done _ _ _ _ _ _ _ Henrich H2) as Henriched.
      split; intros cwd before r Hin;
        apply elem_of_app in Hin as [Hin|Hin];
        [| apply elem_of_app in Hin as [Hin|Hin] | | apply elem_of_app in Hin as [Hin|Hin]];
        first [ apply (gate_spawns _ _ _ _ _ _ _ _ _ _ _ _ H1) in Hin as [Hcmd ->]
              | apply (gate_spawns _ _ _ _ _ _ _ _ _ _ _ _ H2) in Hin as [Hcmd ->]
              | apply (gate_spawns _ _ _ _ _ _ _ _ _ _ _ _ H3) in Hin as [Hcmd ->] ];
        first [ discriminate Hcmd | assumption ].
    + split; intros cwd before r Hin;
        apply elem_of_app in Hin as [Hin|Hin];
        first [ apply (gate_spawns _ _ _ _ _ _ _ _ _ _ _ _ H1) in Hin as [Hcmd ->]
              | apply (gate_spawns _ _ _ _ _ _ _ _ _ _ _ _ H2) in Hin as [Hcmd ->] ];
        first [ discriminate Hcmd | assumption ].
  - split; intros cwd before r Hin;
      apply (gate_spawns _ _ _ _ _ _ _ _ _ _ _ _ H1) in Hin as [Hcmd ->];
      discriminate Hcmd.
Qed.

Lemma sim_tool_writes_output (c : Sim.config) (py script : string)
  (rest : list string) (cwd : option string) (artifact content : string) :
  Sim.status c script = 0 →
  Sim.writes c script = Some content →
  Sim.out_path (py :: script :: rest) = Some artifact →
  writes_output (Runtime0 := Sim.runtime c) (py :: script :: rest) cwd artifact.
Proof.
  intros Hstatus Hwrites Hout fs fs'.
  change (spawn fs (py :: script :: rest) cwd)
    with (Sim.run c fs (py :: script :: rest) cwd).
  unfold Sim.run. rewrite Hstatus, Hwrites, Hout.
  intros [= <-].
  change (Sim.exists_ (<[artifact := Sim.File content]> fs) artifact = true).
  unfold Sim.exists_. by rewrite lookup_insert_eq.
Qed.

Lemma stage_input_exists_witness :
  let c := {| lxc_path := "lxc"; code_path := "code"; sbom_path := "sbom.json";
              risk_db := "lxc/risk_db.json"; enriched_db := "lxc/risk_db_llm.json";
              threat_map := "lxc/threat_map.json" |} in
  let run :=
    ensure_mapping (Runtime0 := Sim.runtime Sim.tools_ok)
      "lxc" "code" "sbom.json" "lxc/risk_db.json" "lxc/risk_db_llm.json"
      "lxc/threat_map.json" ∅ in
  (∀ cwd before r,
     Spawn (enrich_cmd (Runtime0 := Sim.runtime Sim.tools_ok)
              "lxc/risk_db.json" "lxc/risk_db_llm.json") cwd before r ∈ run.2 →
     Sim.exists_ before "lxc/risk_db.json" = true) ∧
  (∀ cwd before r,
     Spawn (map_cmd (Runtime0 := Sim.runtime Sim.tools_ok)
              "code" "lxc/risk_db_llm.json" "lxc/threat_map.json") cwd before r ∈ run.2 →
     Sim.exists_ before "lxc/risk_db_llm.json" = true).
Proof.
  cbv zeta.
  apply (stage_input_exists (Runtime0 := Sim.runtime Sim.tools_ok)
           {| lxc_path := "lxc"; code_path := "code"; sbom_path := "sbom.json";
              risk_db := "lxc/risk_db.json"; enriched_db := "lxc/risk_db_llm.json";
              threat_map := "lxc/threat_map.json" |} ∅
           (ensure_mapping (Runtime0 := Sim.runtime Sim.tools_ok)
              "lxc" "code" "sbom.json" "lxc/risk_db.json" "lxc/risk_db_llm.json"
              "lxc/threat_map.json" ∅).1.2
           (ensure_mapping (Runtime0 := Sim.runtime Sim.tools_ok)
              "lxc" "code" "sbom.json" "lxc/risk_db.json" "lxc/risk_db_llm.json"
              "lxc/threat_map.json" ∅).1.1).
  - by apply (sim_tool_writes_output Sim.tools_ok _ _ _ _ _ "{}").
  - by apply (sim_tool_writes_output Sim.tools_ok _ _ _ _ _ "{}").
  - vm_compute; reflexivity.
Defined.

(** C3 as stated fails, in two ways.  A risk database that exists and is
    empty passes the extraction gate, and the enrichment tool is started on
    it.  And when the extraction tool ends in status 0 without writing its
    output, the enrichment tool is started although there is no risk
    database. *)
Lemma enricher_started_without_usable_input :
  let enrich := enrich_cmd (Runtime0 := Sim.runtime Sim.tools_ok)
                  "lxc/risk_db.json" "lxc/risk_db_llm.json" in
  (∃ cwd before r,
     Spawn enrich cwd before r ∈
       (ensure_mapping (Runtime0 := Sim.runtime Sim.tools_ok)
          "lxc" "code" "sbom.json" "lxc/risk_db.json" "lxc/risk_db_llm.json"
          "lxc/threat_map.json" {[ "lxc/risk_db.json" := Sim.File "" ]}).2 ∧
     missing_or_empty (Runtime0 := Sim.runtime Sim.tools_ok) before "lxc/risk_db.json") ∧
  (∃ cwd before r,
     Spawn enrich cwd before r ∈
       (ensure_mapping (Runtime0 := Sim.runtime Sim.extractor_writes_nothing)
          "lxc" "code" "sbom.json" "lxc/risk_db.json" "lxc/risk_db_llm.json"
          "lxc/threat_map.json" ∅).2 ∧
     missing_or_empty (Runtime0 := Sim.runtime Sim.extractor_writes_nothing)
       before "lxc/risk_db.json").
Proof.
  cbv zeta. split.
  - exists (Some "lxc"), {[ "lxc/risk_db.json" := Sim.File "" ]}, (inr 0).
    split; [|right; vm_compute; reflexivity].
    vm_compute. repeat constructor.
  - exists (Some "lxc"), ∅, (inr 0).
    split; [|left; vm_compute; reflexivity].
    vm_compute. repeat constructor.
Qed.

(** ** The mapping translator *)

Section Entries.
Context {FS : Type} `{!Runtime FS}.

Lemma absent_or_empty_falsy (d : gmap string pyobj) key :
  absent_or_empty (d !! key) → truthy (default PyNone (d !! key)) = false.
Proof.
  intros [->|[->|[->|[->| ->]]]]; reflexivity.
Qed.

Lemma visualize_entry_skip ast out (d : gmap string pyobj) (fs : FS) :
  absent_or_empty (d !! "file") ∨ absent_or_empty (d !! "api") →
  visualize_entry ast out (PyDict d) fs = (Return tt, fs, []).
Proof.
  intros Hd. unfold visualize_entry, py_get. rewrite !lift_inr.
  destruct Hd as [Hd|Hd]; apply absent_or_empty_falsy in Hd; rewrite Hd;
    [done|by rewrite orb_true_r].
Qed.

Lemma for_each_skip {A} (body : A → prog FS unit) (before after : list A) x :
  (∀ fs, body x fs = (Return tt, fs, [])) →
  ∀ fs, for_each (before ++ x :: after) body fs = for_each (before ++ after) body fs.
Proof.
  intros Hx. induction before as [|y before IH]; intros fs; simpl.
  - exact (bind_silent (body x) (λ _, for_each after body) fs tt (Hx fs)).
  - rewrite !bind_run.
    destruct (body y fs) as [[[[]|c|e] fs1] evs1]; [|done..].
    by rewrite IH.
Qed.

Lemma truthy_str s : s ≠ "" → truthy (PyStr s) = true.
Proof. intros Hs. simpl. by destruct s. Qed.

(** What the loop body does with a valid entry: one command, then, if it
    ended in status 0, one line. *)
Lemma visualize_entry_valid ast out (d : gmap string pyobj) f a cr (fs : FS) :
  valid_entry d f a cr →
  visualize_entry ast out (PyDict d) fs =
    (run_command
       (visualize_cmd ast (PosixPath.join cr f) (entry_target a) (entry_out_png out f a))
       None ;;
     print ("Generated diagram: " +:+ entry_out_png out f a)) fs.
Proof.
  intros (Hf & Hfne & Ha & Hane & Hcr).
  unfold visualize_entry, py_get. rewrite !lift_inr, Hf, Ha. cbn [default from_option id].
  rewrite (truthy_str f Hfne), (truthy_str a Hane). cbn [negb orb].
  rewrite lift_inr.
  assert (default (PyStr "") (d !! "code_root") = PyStr cr) as ->.
  { by destruct Hcr as [->|[-> ->]]. }
  cbn [id]. unfold py_os_path_join, py_fspath, py_strip. by rewrite !lift_inr.
Qed.

Lemma spawned_command_then_print cmd cwd line (fs : FS) :
  spawned ((run_command cmd cwd ;; print line) fs).2 = [cmd].
Proof.
  rewrite bind_run, run_command_run. cbv zeta.
  destruct (spawn fs cmd cwd) as [e|[c fs1]]; [done|].
  by destruct (c =? 0).
Qed.

Lemma spawned_valid_entry ast out (d : gmap string pyobj) f a cr (fs : FS) :
  valid_entry d f a cr →
  spawned (visualize_entry ast out (PyDict d) fs).2 =
    [visualize_cmd ast (PosixPath.join cr f) (entry_target a) (entry_out_png out f a)].
Proof.
  intros Hd. rewrite (visualize_entry_valid _ _ _ _ _ _ _ Hd).
  apply spawned_command_then_print.
Qed.

End Entries.

(** Outside the data model the loop body raises: an entry that is not an
    object has no [get], and a [code_root] that is not a string cannot be
    joined. *)
Example non_object_entry_raises {FS} `{!Runtime FS} (ast out : string) (fs : FS) :
  visualize_entry ast out (PyStr "app/utils.py") fs = (Raised AttributeError, fs, []).
Proof. reflexivity. Qed.

Example null_code_root_raises {FS} `{!Runtime FS} (ast out : string) (fs : FS) :
  let d : gmap string pyobj :=
    <["file" := PyStr "/srv/app/run.py"]>
      (<["api" := PyStr "eval"]> {[ "code_root" := PyNone ]}) in
  visualize_entry ast out (PyDict d) fs = (Raised TypeError, fs, []).
Proof. reflexivity. Qed.

(** C4.  An entry (a JSON object) whose [file] or [api] is missing or empty
    makes the loop body return at once: no process, no output, no change,
    no failure.  The loop over a list that holds such an entry runs exactly
    as the loop over the list without it. *)
Theorem incomplete_entry_is_skipped {FS} `{!Runtime FS}
  (ast out : string) (d : gmap string pyobj) (before after : list pyobj) (fs : FS) :
  absent_or_empty (d !! "file") ∨ absent_or_empty (d !! "api") →
  visualize_entry ast out (PyDict d) fs = (Return tt, fs, []) ∧
  for_each (before ++ PyDict d :: after) (visualize_entry ast out) fs =
    for_each (before ++ after) (visualize_entry ast out) fs.
Proof.
  intros Hd. split; [by apply visualize_entry_skip|].
  apply for_each_skip. intros fs0. by apply visualize_entry_skip.
Qed.

Lemma incomplete_entry_is_skipped_witness :
  let d : gmap string pyobj := {[ "file" := PyStr "app/broken.py" ]} in
  let ok : pyobj := PyDict (<["file" := PyStr "app/utils.py"]> {[ "api" := PyStr "^eval$" ]}) in
  let body := visualize_entry (Runtime0 := Sim.runtime Sim.tools_ok) "viz" "output" in
  (absent_or_empty (d !! "file") ∨ absent_or_empty (d !! "api")) ∧
  body (PyDict d) ∅ = (Return tt, ∅, []) ∧
  for_each ([ok] ++ PyDict d :: [ok]) body ∅ = for_each ([ok] ++ [ok]) body ∅.
Proof.
  cbv zeta.
  assert (absent_or_empty (({[ "file" := PyStr "app/broken.py" ]} : gmap string pyobj) !! "file") ∨
          absent_or_empty (({[ "file" := PyStr "app/broken.py" ]} : gmap string pyobj) !! "api"))
    as Hd.
  { right. left. vm_compute. reflexivity. }
  split; [exact Hd|].
  exact (incomplete_entry_is_skipped (Runtime0 := Sim.runtime Sim.tools_ok) _ _ _ _ _ _ Hd).
Defined.

(** C7.  For a valid entry, in whatever state of the run the loop body
    meets it, the one command it starts ends in [-o <path>] where [<path>]
    is the output directory joined with [<base>_<target>.png]; [<base>] is
    the last component of [file] without its extension (the component is
    [<base>] followed by nothing, or by a dot and dot-free characters), and
    [<target>] is the stripped pattern.  When the output directory is not
    empty and does not end in a slash, the path is literally
    [<output_dir>/<base>_<target>.png].  For [app/utils.py] and target
    [eval] it is [utils_eval.png] in the output directory. *)
Theorem image_path_of_entry {FS} `{!Runtime FS}
  (ast out : string) (d : gmap string pyobj) (f a cr : string) (fs : FS) :
  valid_entry d f a cr →
  let base := entry_base_name f in
  let target := entry_target a in
  let name := base +:+ "_" +:+ target +:+ ".png" in
  spawned (visualize_entry ast out (PyDict d) fs).2 =
    [[sys_executable; PosixPath.join ast "astvisualizer.py";
      "-f"; PosixPath.join cr f; "--target"; target;
      "-o"; PosixPath.join out name]] ∧
  (∃ ext, PosixPath.basename f = base +:+ ext ∧
          (ext = "" ∨ ∃ r, ext = String "." r ∧ PyStr.rfind "." r = -1)) ∧
  (out ≠ "" → PyStr.endswith "/" out = false →
   PosixPath.join out name = out +:+ "/" +:+ base +:+ "_" +:+ target +:+ ".png") ∧
  (f = "app/utils.py" → target = "eval" →
   PosixPath.join out name = PosixPath.join out "utils_eval.png").
Proof.
  intros Hd base target name. split; [|split; [|split]].
  - exact (spawned_valid_entry ast out d f a cr fs Hd).
  - exists (PosixPath.splitext (PosixPath.basename f)).2. split.
    + symmetry. apply splitext_app.
    + apply splitext_ext.
  - intros Hne Hend. apply join_relative; [|done..].
    apply image_name_relative.
  - subst name base. intros -> ->. reflexivity.
Qed.

Lemma image_path_of_entry_witness :
  let d : gmap string pyobj :=
    <["file" := PyStr "app/utils.py"]> {[ "api" := PyStr "^eval$" ]} in
  valid_entry d "app/utils.py" "^eval$" "" ∧
  spawned (visualize_entry (Runtime0 := Sim.runtime Sim.tools_ok)
             "viz" "output" (PyDict d) ∅).2 =
    [["python3"; "viz/astvisualizer.py"; "-f"; "app/utils.py"; "--target"; "eval";
      "-o"; "output/utils_eval.png"]] ∧
  (∃ ext, PosixPath.basename "app/utils.py" = "utils" +:+ ext ∧
          (ext = "" ∨ ∃ r, ext = String "." r ∧ PyStr.rfind "." r = -1)) ∧
  ("output" ≠ "" → PyStr.endswith "/" "output" = false →
   PosixPath.join "output" "utils_eval.png" = "output/utils_eval.png") ∧
  ("app/utils.py" = "app/utils.py" → "eval" = "eval" →
   PosixPath.join "output" "utils_eval.png" = PosixPath.join "output" "utils_eval.png").
Proof.
  cbv zeta.
  assert (valid_entry (<["file" := PyStr "app/utils.py"]> {[ "api" := PyStr "^eval$" ]})
            "app/utils.py" "^eval$" "") as Hd.
  { repeat split; [discriminate|discriminate|right; split; reflexivity]. }
  split; [exact Hd|].
  exact (image_path_of_entry (Runtime0 := Sim.runtime Sim.tools_ok)
           "viz" "output" _ _ _ _ ∅ Hd).
Defined.

(** C8 fails on the code.  The path handed to the visualization tool is
    [code_root] (or the empty string) joined with [file], and nothing makes
    it absolute: for the entry [{"file": "app/utils.py", "api": "eval"}] the
    tool is started with [-f app/utils.py]. *)
Theorem relative_file_is_passed_relative {FS} `{!Runtime FS}
  (ast out : string) (fs : FS) :
  let d : gmap string pyobj :=
    <["file" := PyStr "app/utils.py"]> {[ "api" := PyStr "eval" ]} in
  spawned (visualize_entry ast out (PyDict d) fs).2 =
    [visualize_cmd ast "app/utils.py" "eval" (PosixPath.join out "utils_eval.png")] ∧
  PosixPath.isabs "app/utils.py" = false.
Proof.
  intros d. split; [|reflexivity].
  apply (spawned_valid_entry ast out d "app/utils.py" "eval" "" fs).
  subst d. repeat split; [discriminate|discriminate|right; split; reflexivity].
Qed.

(** C9.  For a valid entry whose [file] is absolute, joining [code_root]
    with [file] gives [file], whatever [code_root] is, and [file] itself is
    what the visualization tool is started on. *)
Theorem absolute_file_ignores_code_root {FS} `{!Runtime FS}
  (ast out : string) (d : gmap string pyobj) (f a cr : string) (fs : FS) :
  valid_entry d f a cr →
  PosixPath.isabs f = true →
  PosixPath.join cr f = f ∧
  spawned (visualize_entry ast out (PyDict d) fs).2 =
    [[sys_executable; PosixPath.join ast "astvisualizer.py";
      "-f"; f; "--target"; entry_target a; "-o"; entry_out_png out f a]].
Proof.
  intros Hd Habs. split; [by apply join_absolute|].
  rewrite (spawned_valid_entry ast out d f a cr fs Hd).
  unfold visualize_cmd. by rewrite (join_absolute cr f Habs).
Qed.

Lemma absolute_file_ignores_code_root_witness :
  let d : gmap string pyobj :=
    <["file" := PyStr "/srv/app/run.py"]>
      (<["api" := PyStr "^os\.system$"]> {[ "code_root" := PyStr "/home/ci" ]}) in
  valid_entry d "/srv/app/run.py" "^os\.system$" "/home/ci" ∧
  PosixPath.isabs "/srv/app/run.py" = true ∧
  PosixPath.join "/home/ci" "/srv/app/run.py" = "/srv/app/run.py" ∧
  spawned (visualize_entry (Runtime0 := Sim.runtime Sim.tools_ok)
             "viz" "output" (PyDict d) ∅).2 =
    [["python3"; "viz/astvisualizer.py"; "-f"; "/srv/app/run.py";
      "--target"; "os\.system"; "-o"; "output/run_os\.system.png"]].
Proof.
  cbv zeta.
  assert (valid_entry
            (<["file" := PyStr "/srv/app/run.py"]>
               (<["api" := PyStr "^os\.system$"]> {[ "code_root" := PyStr "/home/ci" ]}))
            "/srv/app/run.py" "^os\.system$" "/home/ci") as Hd.
  { repeat split; [discriminate|discriminate|left; reflexivity]. }
  split; [exact Hd|]. split; [reflexivity|].
  exact (absolute_file_ignores_code_root (Runtime0 := Sim.runtime Sim.tools_ok)
           "viz" "output" _ _ _ _ ∅ Hd eq_refl).
Defined.

(** C10.  Let the pipeline stages have returned, let the output directory
    exist or [os.makedirs] succeed, and let the threat map parse to the
    empty list.  Then [visualize_calls] returns without starting a process
    or printing a line, the output directory exists afterwards, [main]
    returns after its closing line, and the exit status is 0. *)
Theorem empty_threat_map_completes {FS} `{!Runtime FS}
  (lxc astviz code sbom out : string) (fs0 fs fs1 : FS)
  (evs0 : list (event FS)) (text : string) :
  let tm := PosixPath.join lxc "threat_map.json" in
  ensure_mapping lxc code sbom (PosixPath.join lxc "risk_db.json")
    (PosixPath.join lxc "risk_db_llm.json") tm fs0 = (Return tt, fs, evs0) →
  (if fs_exists fs out then fs1 = fs else fs_makedirs fs out = inr fs1) →
  fs_read_text fs1 tm = inr text →
  json_loads text = inr (PyList []) →
  visualize_calls astviz tm out fs = (Return tt, fs1, []) ∧
  fs_exists fs1 out = true ∧
  main lxc astviz code sbom out fs0 = (Return tt, fs1, evs0 ++ [Stdout done_line]) ∧
  exit_status (main lxc astviz code sbom out fs0).1.1 = 0.
Proof.
  intros tm Hstages Hdir Hread Hparse.
  assert (visualize_calls astviz tm out fs = (Return tt, fs1, [])) as Hviz.
  { unfold visualize_calls.
    rewrite (bind_silent _ _ fs (fs_exists fs out)) by reflexivity.
    assert ((if negb (fs_exists fs out) then os_makedirs out else mret tt) fs
            = (Return tt, fs1, [])) as Hmk.
    { destruct (fs_exists fs out); simpl.
      - by subst fs1.
      - unfold os_makedirs. by rewrite Hdir. }
    rewrite (bind_quiet _ _ fs tt fs1 Hmk).
    rewrite (bind_silent _ _ fs1 (PyList []))
      by (unfold json_load; by rewrite Hread, Hparse).
    reflexivity. }
  assert (main lxc astviz code sbom out fs0 = (Return tt, fs1, evs0 ++ [Stdout done_line]))
    as Hmain.
  { unfold main. cbv zeta. fold tm.
    rewrite bind_run, Hstages, bind_run, Hviz. reflexivity. }
  split; [exact Hviz|]. split; [|split; [exact Hmain|by rewrite Hmain]].
  destruct (fs_exists fs out) eqn:Hout.
  - by subst fs1.
  - by apply (fs_makedirs_exists fs).
Qed.

Lemma empty_threat_map_completes_witness :
  let fs0 : gmap string Sim.node :=
    <["lxc/risk_db.json" := Sim.File "{}"]>
      (<["lxc/risk_db_llm.json" := Sim.File "{}"]>
         {[ "lxc/threat_map.json" := Sim.File "[]" ]}) in
  let fs1 := <["output" := Sim.Dir]> fs0 in
  let evs0 : list (event (gmap string Sim.node)) :=
    [Stdout "Found existing risk DB: lxc/risk_db.json";
     Stdout "Found existing enriched DB: lxc/risk_db_llm.json";
     Stdout "Found existing threat map: lxc/threat_map.json"] in
  visualize_calls (Runtime0 := Sim.runtime Sim.tools_ok)
    "viz" "lxc/threat_map.json" "output" fs0 = (Return tt, fs1, []) ∧
  Sim.exists_ fs0 "output" = false ∧
  Sim.exists_ fs1 "output" = true ∧
  main (Runtime0 := Sim.runtime Sim.tools_ok) "lxc" "viz" "code" "sbom.json" "output" fs0
    = (Return tt, fs1, evs0 ++ [Stdout done_line]) ∧
  exit_status
    (main (Runtime0 := Sim.runtime Sim.tools_ok)
       "lxc" "viz" "code" "sbom.json" "output" fs0).1.1 = 0.
Proof.
  cbv zeta.
  pose proof (empty_threat_map_completes (Runtime0 := Sim.runtime Sim.tools_ok)
                "lxc" "viz" "code" "sbom.json" "output"
                (<["lxc/risk_db.json" := Sim.File "{}"]>
                   (<["lxc/risk_db_llm.json" := Sim.File "{}"]>
                      {[ "lxc/threat_map.json" := Sim.File "[]" ]}))
                (<["lxc/risk_db.json" := Sim.File "{}"]>
                   (<["lxc/risk_db_llm.json" := Sim.File "{}"]>
                      {[ "lxc/threat_map.json" := Sim.File "[]" ]}))
                (<["output" := Sim.Dir]>
                   (<["lxc/risk_db.json" := Sim.File "{}"]>
                      (<["lxc/risk_db_llm.json" := Sim.File "{}"]>
                         {[ "lxc/threat_map.json" := Sim.File "[]" ]})))
                [Stdout "Found existing risk DB: lxc/risk_db.json";
                 Stdout "Found existing enriched DB: lxc/risk_db_llm.json";
                 Stdout "Found existing threat map: lxc/threat_map.json"]
                "[]") as H.
  cbv zeta in H.
  destruct H as (Hviz & Hout & Hmain & Hstatus);
    [vm_compute; reflexivity..|].
  split; [exact Hviz|]. split; [vm_compute; reflexivity|].
  split; [exact Hout|]. split; [exact Hmain|exact Hstatus].
Defined.

(** ** Pattern normalization *)

(** C5.  The target identifier of a pattern is the pattern without its
    longest prefix and its longest suffix made of [^], [$] and [\]: the
    pattern is a run of such characters, the target, and another run of such
    characters; the target neither starts nor ends with one; what is between
    is kept as it is.  [^os\\.system$] gives [os\\.system]. *)
Theorem target_strips_boundary_anchors (api : string) :
  py_strip (PyStr api) "^$\" = inr (entry_target api) ∧
  (∃ pre post,
     api = pre +:+ entry_target api +:+ post ∧
     PyStr.all_in "^$\" pre = true ∧ PyStr.all_in "^$\" post = true) ∧
  (∀ c, PyStr.first (entry_target api) = Some c → ¬ (c = "^" ∨ c = "$" ∨ c = "\")%char) ∧
  (∀ c, PyStr.last (entry_target api) = Some c → ¬ (c = "^" ∨ c = "$" ∨ c = "\")%char) ∧
  (∀ c, PyStr.in_chars "^$\" c = true ↔ (c = "^" ∨ c = "$" ∨ c = "\")%char) ∧
  entry_target "^os\\.system$" = "os\\.system" ∧
  entry_target "^os\.system$" = "os\.system".
Proof.
  split; [reflexivity|]. split; [apply strip_split|].
  split; [|split; [|split; [apply in_anchor_chars|by split]]].
  - intros c Hc Hanchor. apply strip_first in Hc.
    apply in_anchor_chars in Hanchor. congruence.
  - intros c Hc Hanchor. apply rstrip_last in Hc.
    apply in_anchor_chars in Hanchor. congruence.
Qed.

(** C6.  Normalizing a pattern twice gives what normalizing it once gives. *)
Theorem target_normalization_idempotent (s : string) :
  entry_target (entry_target s) = entry_target s.
Proof. apply strip_strip. Qed.

(** * Further properties of the code *)

(** ** What a program emits *)

Section Emitting.
Context {FS : Type} `{!Runtime FS}.
Variable P : event FS → Prop.

Lemma emits_bind {A B} (m : prog FS A) (k : A → prog FS B) :
  Emits P m → (∀ a, Emits P (k a)) → Emits P (m ≫= k).
Proof.
  intros Hm Hk fs. rewrite bind_run. specialize (Hm fs).
  destruct (m fs) as [[[a|c|e] fs1] evs1]; [|done..].
  specialize (Hk a fs1). destruct (k a fs1) as [[o fs2] evs2].
  by apply Forall_app.
Qed.

Lemma emits_if {A} (b : bool) (m1 m2 : prog FS A) :
  Emits P m1 → Emits P m2 → Emits P (if b then m1 else m2).
Proof. by destruct b. Qed.

Lemma emits_ret {A} (a : A) : Emits P (mret a : prog FS A).
Proof. intros fs. apply Forall_nil_2. Qed.

Lemma emits_lift {A} (r : pyexc + A) : Emits P (lift r : prog FS A).
Proof. destruct r; intros fs; apply Forall_nil_2. Qed.

Lemma emits_print line : P (Stdout line) → Emits P (print line : prog FS unit).
Proof. intros Hl fs. by apply Forall_singleton. Qed.

Lemma emits_exists p : Emits P (os_path_exists p : prog FS bool).
Proof. intros fs. apply Forall_nil_2. Qed.

Lemma emits_makedirs p : Emits P (os_makedirs p : prog FS unit).
Proof.
  intros fs. unfold os_makedirs. destruct (fs_makedirs fs p); apply Forall_nil_2.
Qed.

Lemma emits_json_load p : Emits P (json_load p : prog FS pyobj).
Proof.
  intros fs. unfold json_load.
  destruct (fs_read_text fs p) as [e|text]; [apply Forall_nil_2|].
  destruct (json_loads text); apply Forall_nil_2.
Qed.

Lemma emits_run_command cmd cwd :
  P (Stdout (running_line cmd)) →
  (∀ before r, P (Spawn cmd cwd before r)) →
  P (Stderr (failed_line cmd)) →
  Emits P (run_command cmd cwd : prog FS unit).
Proof.
  intros Hrun Hspawn Hfail fs. rewrite run_command_run. cbv zeta.
  destruct (spawn fs cmd cwd) as [e|[c fs1]]; [|destruct (c =? 0)];
    repeat (apply Forall_cons; split; [done|]); apply Forall_nil_2.
Qed.

Lemma emits_for_each {A} (l : list A) (body : A → prog FS unit) :
  (∀ x, Emits P (body x)) → Emits P (for_each l body).
Proof.
  intros Hbody. induction l as [|x l IH]; simpl.
  - apply emits_ret.
  - apply emits_bind; [apply Hbody|by intros _].
Qed.

End Emitting.

Ltac emits :=
  repeat first
    [ by apply emits_run_command | by apply emits_print
    | apply emits_ret | apply emits_lift | apply emits_exists
    | apply emits_makedirs | apply emits_json_load | apply emits_for_each
    | apply emits_if | apply emits_bind | intros ? ].

Lemma spawned_app {FS} (evs1 evs2 : list (event FS)) :
  spawned (evs1 ++ evs2) = spawned evs1 ++ spawned evs2.
Proof.
  induction evs1 as [|[] evs1 IH]; simpl; [done..|]. by rewrite IH.
Qed.

(** ** The pipeline as a whole *)

Section Pipeline.
Context {FS : Type} `{!Runtime FS}.

Lemma run_stage_gate (c : paths) (s : stage) :
  run_stage c s =
    (gate (stage_artifact c s) (stage_cmd c s) (Some (lxc_path c))
       (stage_found_line c s) : prog FS unit).
Proof. by destruct s. Qed.

Lemma spawned_run_command cmd cwd (fs : FS) :
  spawned (run_command cmd cwd fs).2 = [cmd].
Proof.
  rewrite run_command_run. cbv zeta.
  destruct (spawn fs cmd cwd) as [e|[c fs1]]; [done|]. by destruct (c =? 0).
Qed.

Lemma spawned_gate p cmd cwd line (fs : FS) :
  spawned (gate p cmd cwd line fs).2 = if fs_exists fs p then [] else [cmd].
Proof.
  rewrite gate_run. destruct (fs_exists fs p); [done|]. apply spawned_run_command.
Qed.

(** The processes of a sequence: those of the first part, then those of the
    second if it is reached. *)
Lemma spawned_bind {A B} (m : prog FS A) (k : A → prog FS B) fs :
  spawned ((m ≫= k) fs).2 = spawned (m fs).2 ∨
  ∃ a fs1, spawned ((m ≫= k) fs).2 = spawned (m fs).2 ++ spawned (k a fs1).2.
Proof.
  rewrite bind_run. destruct (m fs) as [[[a|c|e] fs1] evs1]; [|by left..].
  right. exists a, fs1. destruct (k a fs1) as [[o fs2] evs2]. apply spawned_app.
Qed.

End Pipeline.

(** X1.  A stage starts a process exactly when nothing exists at its output
    path: then its command is the only process it starts, and in either
    case the stage returns normally exactly when the artifact was there or
    the command ended in status 0. *)
Theorem stage_runs_tool_iff_missing {FS} `{!Runtime FS}
  (c : paths) (s : stage) (fs : FS) :
  spawned (run_stage c s fs).2 =
    (if fs_exists fs (stage_artifact c s) then [] else [stage_cmd c s]) ∧
  ((run_stage c s fs).1.1 = Return tt ↔
   fs_exists fs (stage_artifact c s) = true ∨
   ∃ fs', spawn fs (stage_cmd c s) (Some (lxc_path c)) = inr (0, fs')).
Proof.
  rewrite run_stage_gate. split; [apply spawned_gate|].
  rewrite gate_run, run_command_run. cbv zeta.
  destruct (fs_exists fs (stage_artifact c s)); [by split; [left|]|].
  destruct (spawn fs (stage_cmd c s) (Some (lxc_path c))) as [e|[rc fs1]].
  - split; [done|]. intros [?|[fs' ?]]; done.
  - destruct (rc =? 0) eqn:E.
    + apply Z.eqb_eq in E. subst rc. split; [|done]. intros _. right. by exists fs1.
    + apply Z.eqb_neq in E. split; [done|].
      intros [?|[fs' [= ? ?]]]; done.
Qed.

(** X2.  When all three artifacts exist, the pipeline starts no process and
    changes nothing: it prints its three lines and returns. *)
Theorem complete_pipeline_is_left_alone {FS} `{!Runtime FS} (c : paths) (fs : FS) :
  (∀ s, fs_exists fs (stage_artifact c s) = true) →
  ensure_mapping (lxc_path c) (code_path c) (sbom_path c)
    (risk_db c) (enriched_db c) (threat_map c) fs =
  (Return tt, fs,
   [Stdout (stage_found_line c Extract); Stdout (stage_found_line c Enrich);
    Stdout (stage_found_line c Map)]).
Proof.
  intros Hall. rewrite ensure_mapping_stages.
  rewrite bind_run, !run_stage_gate, gate_run, (Hall Extract).
  rewrite bind_run, gate_run, (Hall Enrich).
  by rewrite gate_run, (Hall Map).
Qed.

Lemma complete_pipeline_is_left_alone_witness :
  let c := {| lxc_path := "lxc"; code_path := "code"; sbom_path := "sbom.json";
              risk_db := "lxc/risk_db.json"; enriched_db := "lxc/risk_db_llm.json";
              threat_map := "lxc/threat_map.json" |} in
  let fs : gmap string Sim.node :=
    <["lxc/risk_db.json" := Sim.File "{}"]>
      (<["lxc/risk_db_llm.json" := Sim.File "{}"]>
         {[ "lxc/threat_map.json" := Sim.File "[]" ]}) in
  (∀ s, Sim.exists_ fs (stage_artifact c s) = true) ∧
  ensure_mapping (Runtime0 := Sim.runtime Sim.extractor_fails)
    "lxc" "code" "sbom.json" "lxc/risk_db.json" "lxc/risk_db_llm.json"
    "lxc/threat_map.json" fs =
  (Return tt, fs,
   [Stdout "Found existing risk DB: lxc/risk_db.json";
    Stdout "Found existing enriched DB: lxc/risk_db_llm.json";
    Stdout "Found existing threat map: lxc/threat_map.json"]).
Proof.
  cbv zeta.
  assert (∀ s, Sim.exists_
                 (<["lxc/risk_db.json" := Sim.File "{}"]>
                    (<["lxc/risk_db_llm.json" := Sim.File "{}"]>
                       {[ "lxc/threat_map.json" := Sim.File "[]" ]}))
                 (stage_artifact
                    {| lxc_path := "lxc"; code_path := "code"; sbom_path := "sbom.json";
                       risk_db := "lxc/risk_db.json";
                       enriched_db := "lxc/risk_db_llm.json";
                       threat_map := "lxc/threat_map.json" |} s) = true) as Hall.
  { intros []; vm_compute; reflexivity. }
  split; [exact Hall|].
  exact (complete_pipeline_is_left_alone (Runtime0 := Sim.runtime Sim.extractor_fails)
           _ _ Hall).
Defined.

Lemma spawned_gate_cases {FS} `{!Runtime FS} p cmd cwd line (fs : FS) :
  spawned (gate p cmd cwd line fs).2 = [] ∨ spawned (gate p cmd cwd line fs).2 = [cmd].
Proof. rewrite spawned_gate. destruct (fs_exists fs p); auto. Qed.

(** X3.  The pipeline starts at most three processes, and in pipeline
    order: the commands it starts are taken, in order, from extraction,
    enrichment, mapping.  Each of them runs in the repository directory
    [lxc_path]. *)
Theorem pipeline_processes_in_order {FS} `{!Runtime FS} (c : paths) (fs : FS) :
  let evs :=
    (ensure_mapping (lxc_path c) (code_path c) (sbom_path c)
       (risk_db c) (enriched_db c) (threat_map c) fs).2 in
  spawned evs `sublist_of` [stage_cmd c Extract; stage_cmd c Enrich; stage_cmd c Map] ∧
  ∀ cmd cwd before r, Spawn cmd cwd before r ∈ evs → cwd = Some (lxc_path c).
Proof.
  intros evs. subst evs. split.
  - rewrite ensure_mapping_stages, !run_stage_gate.
    set (g1 := gate (stage_artifact c Extract) (stage_cmd c Extract)
                 (Some (lxc_path c)) (stage_found_line c Extract) : prog FS unit).
    set (g2 := gate (stage_artifact c Enrich) (stage_cmd c Enrich)
                 (Some (lxc_path c)) (stage_found_line c Enrich) : prog FS unit).
    set (g3 := gate (stage_artifact c Map) (stage_cmd c Map)
                 (Some (lxc_path c)) (stage_found_line c Map) : prog FS unit).
    pose proof (spawned_gate_cases (stage_artifact c Extract) (stage_cmd c Extract)
                  (Some (lxc_path c)) (stage_found_line c Extract) fs) as H1.
    fold g1 in H1.
    destruct (spawned_bind g1 (λ _, g2 ;; g3) fs) as [->|([] & fs1 & ->)].
    { destruct H1 as [-> | ->]; repeat constructor. }
    pose proof (spawned_gate_cases (stage_artifact c Enrich) (stage_cmd c Enrich)
                  (Some (lxc_path c)) (stage_found_line c Enrich) fs1) as H2.
    fold g2 in H2.
    destruct (spawned_bind g2 (λ _, g3) fs1) as [->|([] & fs2 & ->)].
    { destruct H1 as [-> | ->], H2 as [-> | ->]; simpl; repeat constructor. }
    pose proof (spawned_gate_cases (stage_artifact c Map) (stage_cmd c Map)
                  (Some (lxc_path c)) (stage_found_line c Map) fs2) as H3.
    fold g3 in H3.
    destruct H1 as [-> | ->], H2 as [-> | ->], H3 as [-> | ->];
      simpl; repeat constructor.
  - intros cmd cwd before r Hin.
    assert (Emits (λ ev : event FS,
                     match ev with
                     | Spawn _ cwd' _ _ => cwd' = Some (lxc_path c)
                     | _ => True
                     end)
              (ensure_mapping (lxc_path c) (code_path c) (sbom_path c)
                 (risk_db c) (enriched_db c) (threat_map c))) as Hemits.
    { unfold ensure_mapping, stage_extract, stage_enrich, stage_map. emits. }
    specialize (Hemits fs). rewrite Forall_forall in Hemits.
    exact (Hemits _ Hin).
Qed.

(** ** The shape of a trace *)

Section Shape.
Context {FS : Type} `{!Runtime FS}.

Lemma shaped_quiet {A} (o : outcome A) (fs : FS) :
  (∀ c, o ≠ SystemExit c) → shaped (o, fs, []).
Proof.
  intros Ho. exists [], []. split; [done|]. split; [apply Forall_nil_2|].
  destruct o as [a|c|e]; [constructor|by destruct (Ho c)|constructor].
Qed.

Lemma shaped_bind {A B} (m : prog FS A) (k : A → prog FS B) :
  Shaped m → (∀ a, Shaped (k a)) → Shaped (m ≫= k).
Proof.
  intros Hm Hk fs. rewrite bind_run. specialize (Hm fs).
  destruct (m fs) as [[[a|c|e] fs1] evs1];
    destruct Hm as (steps & tail & Hevs & Hsteps & Hend); simpl in Hevs, Hend.
  - specialize (Hk a fs1).
    destruct (k a fs1) as [[o fs2] evs2].
    destruct Hk as (steps2 & tail2 & Hevs2 & Hsteps2 & Hend2). simpl in Hevs2, Hend2.
    inversion Hend; subst.
    exists (steps ++ steps2), tail2. simpl.
    split; [by rewrite concat_app, app_nil_r, app_assoc|].
    split; [by apply Forall_app|done].
  - exists steps, tail. split; [done|]. split; [done|].
    inversion Hend; subst. by constructor.
  - exists steps, tail. split; [done|]. split; [done|].
    inversion Hend; subst; constructor.
Qed.

Lemma shaped_if {A} (b : bool) (m1 m2 : prog FS A) :
  Shaped m1 → Shaped m2 → Shaped (if b then m1 else m2).
Proof. by destruct b. Qed.

Lemma shaped_ret {A} (a : A) : Shaped (mret a : prog FS A).
Proof. intros fs. by apply shaped_quiet. Qed.

Lemma shaped_lift {A} (r : pyexc + A) : Shaped (lift r : prog FS A).
Proof. destruct r; intros fs; by apply shaped_quiet. Qed.

Lemma shaped_exists p : Shaped (os_path_exists p : prog FS bool).
Proof. intros fs. by apply shaped_quiet. Qed.

Lemma shaped_makedirs p : Shaped (os_makedirs p : prog FS unit).
Proof.
  intros fs. unfold os_makedirs. destruct (fs_makedirs fs p); by apply shaped_quiet.
Qed.

Lemma shaped_json_load p : Shaped (json_load p : prog FS pyobj).
Proof.
  intros fs. unfold json_load.
  destruct (fs_read_text fs p) as [e|text]; [by apply shaped_quiet|].
  destruct (json_loads text); by apply shaped_quiet.
Qed.

Lemma shaped_print line : Shaped (print line : prog FS unit).
Proof.
  intros fs. exists [[Stdout line]], []. split; [done|].
  split; [|constructor]. apply Forall_singleton. constructor.
Qed.

Lemma shaped_run_command cmd cwd : Shaped (run_command cmd cwd : prog FS unit).
Proof.
  intros fs. rewrite run_command_run. cbv zeta.
  destruct (spawn fs cmd cwd) as [e|[c fs1]].
  - exists [], [Stdout (running_line cmd); Spawn cmd cwd fs (inl e)].
    split; [done|]. split; [apply Forall_nil_2|constructor].
  - destruct (c =? 0) eqn:E.
    + apply Z.eqb_eq in E. subst c.
      exists [[Stdout (running_line cmd); Spawn cmd cwd fs (inr 0)]], [].
      split; [done|]. split; [|constructor]. apply Forall_singleton. constructor.
    + apply Z.eqb_neq in E.
      exists [], [Stdout (running_line cmd); Spawn cmd cwd fs (inr c);
                  Stderr (failed_line cmd)].
      split; [done|]. split; [apply Forall_nil_2|by constructor].
Qed.

Lemma shaped_for_each {A} (l : list A) (body : A → prog FS unit) :
  (∀ x, Shaped (body x)) → Shaped (for_each l body).
Proof.
  intros Hbody. induction l as [|x l IH]; simpl.
  - apply shaped_ret.
  - apply shaped_bind; [apply Hbody|by intros _].
Qed.

Ltac shaped :=
  repeat first
    [ apply shaped_run_command | apply shaped_print | apply shaped_ret
    | apply shaped_lift | apply shaped_exists | apply shaped_makedirs
    | apply shaped_json_load | apply shaped_for_each
    | apply shaped_if | apply shaped_bind | intros ? ].

Lemma shaped_ensure_mapping lxc code sbom risk enriched tm :
  Shaped (ensure_mapping lxc code sbom risk enriched tm : prog FS unit).
Proof. unfold ensure_mapping, stage_extract, stage_enrich, stage_map. shaped. Qed.

Lemma shaped_visualize_calls ast tm out :
  Shaped (visualize_calls ast tm out : prog FS unit).
Proof. unfold visualize_calls, visualize_entry. shaped. Qed.

Lemma shaped_main lxc astviz code sbom out :
  Shaped (main lxc astviz code sbom out : prog FS unit).
Proof.
  unfold main. cbv zeta.
  apply shaped_bind; [apply shaped_ensure_mapping|intros _].
  apply shaped_bind; [apply shaped_visualize_calls|intros _].
  apply shaped_print.
Qed.

(** Consequences of the shape. *)

Lemma announced_steps (steps : list (list (event FS))) tail {A} (o : outcome A) prev :
  Forall step steps → ending o tail →
  announced_after prev (concat steps ++ tail).
Proof.
  intros Hsteps Hend. revert prev.
  induction Hsteps as [|s steps Hs _ IH]; intros prev; simpl.
  - by destruct Hend.
  - destruct Hs; simpl; [apply IH|]. split; [done|apply IH].
Qed.

Lemma announced_split prev (pre post : list (event FS)) cmd cwd before r :
  announced_after prev (pre ++ Spawn cmd cwd before r :: post) →
  pre = [] ∧ prev = Some (running_line cmd) ∨
  ∃ pre', pre = pre' ++ [Stdout (running_line cmd)].
Proof.
  revert prev. induction pre as [|ev pre IH]; intros prev; simpl.
  - intros [Hprev _]. by left.
  - intros Hann. right.
    destruct ev as [line|line|cmd' cwd' before' r'];
      [apply IH in Hann|apply IH in Hann|destruct Hann as [_ Hann]; apply IH in Hann];
      destruct Hann as [[-> Hprev]|[pre' ->]];
      first [ discriminate Hprev
            | injection Hprev as ->; by exists []
            | by eexists (_ :: pre') ].
Qed.


End Shape.


(** X5.  In every run of the workflow, the event right before a child
    process is the line [Running: <command>] on standard output, with the
    command of that process. *)
Theorem every_process_is_announced {FS} `{!Runtime FS}
  (lxc astviz code sbom out : string) (fs : FS)
  (pre post : list (event FS)) (cmd : list string) (cwd : option string)
  (before : FS) (r : pyexc + Z) :
  (main lxc astviz code sbom out fs).2 = pre ++ Spawn cmd cwd before r :: post →
  ∃ pre', pre = pre' ++ [Stdout ("Running: " +:+ PyStr.join " " cmd)].
Proof.
  intros Hevs.
  destruct (shaped_main lxc astviz code sbom out fs) as (steps & tail & Hshape & Hsteps & Hend).
  pose proof (announced_steps steps tail _ None Hsteps Hend) as Hann.
  rewrite <- Hshape, Hevs in Hann.
  apply announced_split in Hann as [[_ Hnone]|Hpre]; [discriminate Hnone|exact Hpre].
Qed.

Lemma every_process_is_announced_witness :
  let cmd := ["python3"; "nvd_api_extractor.py"; "--sbom"; "sbom.json";
              "--out"; "lxc/risk_db.json"] in
  let running : event (gmap string Sim.node) :=
    Stdout "Running: python3 nvd_api_extractor.py --sbom sbom.json --out lxc/risk_db.json" in
  let diagnostic : event (gmap string Sim.node) :=
    Stderr "Command failed: python3 nvd_api_extractor.py --sbom sbom.json --out lxc/risk_db.json" in
  (main (Runtime0 := Sim.runtime Sim.extractor_fails)
     "lxc" "viz" "code" "sbom.json" "output" ∅).2 =
    [running] ++ Spawn cmd (Some "lxc") ∅ (inr 3) :: [diagnostic] ∧
  ∃ pre', [running] = pre' ++ [Stdout ("Running: " +:+ PyStr.join " " cmd)].
Proof.
  cbv zeta. split; [vm_compute; reflexivity|].
  apply (every_process_is_announced (Runtime0 := Sim.runtime Sim.extractor_fails)
           "lxc" "viz" "code" "sbom.json" "output" ∅ _
           [Stderr "Command failed: python3 nvd_api_extractor.py --sbom sbom.json --out lxc/risk_db.json"]
           _ (Some "lxc") ∅ (inr 3)).
  vm_compute; reflexivity.
Defined.


(** ** The loop over the entries *)

Section Loop.
Context {FS : Type} `{!Runtime FS}.

Lemma entry_cmd_valid ast out e cmd :
  entry_cmd ast out e = Some cmd →
  ∃ d f a cr,
    e = PyDict d ∧ valid_entry d f a cr ∧
    cmd = visualize_cmd ast (PosixPath.join cr f) (entry_target a) (entry_out_png out f a).
Proof.
  destruct e as [| | | | | |d]; try discriminate. unfold entry_cmd.
  destruct (d !! "file") as [[| | | |f| |]|] eqn:Ef; try discriminate.
  destruct (d !! "api") as [[| | | |a| |]|] eqn:Ea; try discriminate.
  destruct (default (PyStr "") (d !! "code_root")) as [| | | |cr| |] eqn:Ecr;
    try discriminate.
  destruct (String.eqb f "") eqn:Hf; [discriminate|].
  destruct (String.eqb a "") eqn:Ha; [discriminate|].
  intros [= <-]. exists d, f, a, cr.
  apply String.eqb_neq in Hf, Ha.
  split; [done|]. split; [|done].
  repeat split; try done.
  destruct (d !! "code_root") as [v|]; simpl in Ecr.
  - left. by subst v.
  - right. split; [done|]. by injection Ecr as <-.
Qed.

Lemma visualize_entry_no_cmd ast out e (fs : FS) :
  entry_cmd ast out e = None →
  ∃ o, visualize_entry ast out e fs = (o, fs, []) ∧ ∀ c, o ≠ SystemExit c.
Proof.
  destruct e as [| | | | | |d];
    try (intros _; eexists; split; [reflexivity|done]).
  unfold entry_cmd, visualize_entry, py_get. rewrite !lift_inr.
  destruct (d !! "file") as [vf|];
    [|intros _; exists (Return tt); split; [reflexivity|done]].
  destruct (d !! "api") as [va|];
    [|intros _; exists (Return tt); split; [|done];
      cbn [default from_option id truthy negb]; by rewrite orb_true_r].
  cbn [default from_option id].
  destruct (truthy vf) eqn:Ef;
    [|intros _; exists (Return tt); split; [reflexivity|done]].
  destruct (truthy va) eqn:Ea;
    [|intros _; exists (Return tt); split; [reflexivity|done]].
  cbn [negb orb]. rewrite lift_inr.
  generalize (default (PyStr "") (d !! "code_root")). intros vc.
  destruct vf as [| | | |f| |], va as [| | | |a| |], vc as [| | | |cr| |];
    try (intros _; eexists; split; [reflexivity|done]).
  simpl in Ef, Ea.
  destruct (String.eqb f ""); [discriminate|].
  destruct (String.eqb a ""); [discriminate|]. discriminate.
Qed.

(** The processes of the loop are a prefix of the commands of its entries,
    and all of them when the loop returns. *)
Lemma for_each_spawned ast out (entries : list pyobj) (fs : FS) :
  spawned (for_each entries (visualize_entry ast out) fs).2
    `prefix_of` omap (entry_cmd ast out) entries ∧
  ((for_each entries (visualize_entry ast out) fs).1.1 = Return tt →
   spawned (for_each entries (visualize_entry ast out) fs).2
     = omap (entry_cmd ast out) entries).
Proof.
  revert fs. induction entries as [|e entries IH]; intros fs.
  { split; [apply prefix_nil|done]. }
  cbn [for_each omap list_omap]. rewrite bind_run.
  destruct (entry_cmd ast out e) as [cmd|] eqn:Ecmd.
  - apply entry_cmd_valid in Ecmd as (d & f & a & cr & -> & Hvalid & ->).
    rewrite (visualize_entry_valid ast out d f a cr fs Hvalid).
    rewrite bind_run, run_command_run. cbv zeta.
    destruct (spawn fs _ None) as [err|[c fs1]].
    { split; [|done]. apply prefix_cons, prefix_nil. }
    destruct (c =? 0).
    + cbn [print]. specialize (IH fs1).
      destruct (for_each entries (visualize_entry ast out) fs1) as [[o fs2] evs2].
      simpl in IH |- *. destruct IH as [IH1 IH2].
      split; [by apply prefix_cons|]. intros Ho. by rewrite IH2.
    + split; [|done]. apply prefix_cons, prefix_nil.
  - destruct (visualize_entry_no_cmd ast out e fs Ecmd) as (o & -> & Ho).
    destruct o as [[]|c|err]; [|by destruct (Ho c)|].
    + specialize (IH fs).
      destruct (for_each entries (visualize_entry ast out) fs) as [[o fs2] evs2].
      exact IH.
    + split; [apply prefix_nil|done].
Qed.

(** What [visualize_calls] does once the output directory is there and the
    threat map is parsed. *)
Lemma visualize_calls_loaded ast tm out (fs fs1 : FS) text data :
  (if fs_exists fs out then fs1 = fs else fs_makedirs fs out = inr fs1) →
  fs_read_text fs1 tm = inr text →
  json_loads text = inr data →
  visualize_calls ast tm out fs =
    (entries ← lift (py_iter data) ; for_each entries (visualize_entry ast out)) fs1.
Proof.
  intros Hdir Hread Hparse. unfold visualize_calls.
  rewrite (bind_silent _ _ fs (fs_exists fs out)) by reflexivity.
  assert ((if negb (fs_exists fs out) then os_makedirs out else mret tt) fs
          = (Return tt, fs1, [])) as Hmk.
  { destruct (fs_exists fs out); simpl.
    - by subst fs1.
    - unfold os_makedirs. by rewrite Hdir. }
  rewrite (bind_quiet _ _ fs tt fs1 Hmk).
  by rewrite (bind_silent _ _ fs1 data)
    by (unfold json_load; by rewrite Hread, Hparse).
Qed.

Lemma ensured_dir_exists out (fs fs1 : FS) :
  (if fs_exists fs out then fs1 = fs else fs_makedirs fs out = inr fs1) →
  fs_exists fs1 out = true.
Proof.
  destruct (fs_exists fs out) eqn:Hout.
  - by intros ->.
  - apply fs_makedirs_exists.
Qed.

End Loop.

Lemma omap_length_le {A B} (f : A → option B) (l : list A) :
  (length (omap f l) ≤ length l)%nat.
Proof.
  induction l as [|x l IH]; [done|].
  change (omap f (x :: l))
    with (match f x with Some y => y :: omap f l | None => omap f l end).
  destruct (f x); cbn [length]; lia.
Qed.

(** X7.  Once the output directory is there and the threat map has parsed
    to a list, the processes [visualize_calls] starts are, in order, the
    commands of the entries that are objects with non-empty string [file]
    and [api] (and a string [code_root], if any), one per entry, up to the
    first entry that ends the run; when [visualize_calls] returns they are
    the commands of all such entries.  So there is never more than one
    process per entry. *)
Theorem visualize_calls_processes {FS} `{!Runtime FS}
  (ast tm out : string) (fs fs1 : FS) (text : string) (entries : list pyobj) :
  (if fs_exists fs out then fs1 = fs else fs_makedirs fs out = inr fs1) →
  fs_read_text fs1 tm = inr text →
  json_loads text = inr (PyList entries) →
  spawned (visualize_calls ast tm out fs).2
    `prefix_of` omap (entry_cmd ast out) entries ∧
  ((visualize_calls ast tm out fs).1.1 = Return tt →
   spawned (visualize_calls ast tm out fs).2 = omap (entry_cmd ast out) entries) ∧
  (length (spawned (visualize_calls ast tm out fs).2) ≤ length entries)%nat.
Proof.
  intros Hdir Hread Hparse.
  rewrite (visualize_calls_loaded ast tm out fs fs1 text _ Hdir Hread Hparse).
  cbn [py_iter]. rewrite lift_inr.
  destruct (for_each_spawned ast out entries fs1) as [Hprefix Hall].
  split; [done|]. split; [done|].
  apply prefix_length in Hprefix.
  etrans; [exact Hprefix|]. apply omap_length_le.
Qed.

Lemma visualize_calls_processes_witness :
  let fs : gmap string Sim.node := {[ "lxc/threat_map.json" := Sim.File "THREATS" ]} in
  let run :=
    visualize_calls (Runtime0 := Sim.runtime Sim.tools_ok)
      "viz" "lxc/threat_map.json" "output" fs in
  let cmds :=
    [["python3"; "viz/astvisualizer.py"; "-f"; "app/utils.py"; "--target"; "eval";
      "-o"; "output/utils_eval.png"];
     ["python3"; "viz/astvisualizer.py"; "-f"; "/srv/app/run.py"; "--target";
      "os\.system"; "-o"; "output/run_os\.system.png"]] in
  omap (entry_cmd (Runtime0 := Sim.runtime Sim.tools_ok) "viz" "output")
    [PyDict {[ "file" := PyStr "app/broken.py" ]};
     PyDict (<["file" := PyStr "app/utils.py"]> {[ "api" := PyStr "^eval$" ]});
     PyDict (<["file" := PyStr "/srv/app/run.py"]>
             (<["api" := PyStr "^os\.system$"]> {[ "code_root" := PyStr "/home/ci" ]}))]
    = cmds ∧
  run.1.1 = Return tt ∧
  spawned run.2 = cmds.
Proof.
  cbv zeta.
  pose proof (visualize_calls_processes (Runtime0 := Sim.runtime Sim.tools_ok)
                "viz" "lxc/threat_map.json" "output"
                {[ "lxc/threat_map.json" := Sim.File "THREATS" ]}
                (<["output" := Sim.Dir]> {[ "lxc/threat_map.json" := Sim.File "THREATS" ]})
                "THREATS"
                [PyDict {[ "file" := PyStr "app/broken.py" ]};
                 PyDict (<["file" := PyStr "app/utils.py"]> {[ "api" := PyStr "^eval$" ]});
                 PyDict (<["file" := PyStr "/srv/app/run.py"]>
                         (<["api" := PyStr "^os\.system$"]>
                            {[ "code_root" := PyStr "/home/ci" ]}))]) as H.
  destruct H as (_ & Hall & _); [vm_compute; reflexivity..|].
  assert ((visualize_calls (Runtime0 := Sim.runtime Sim.tools_ok)
             "viz" "lxc/threat_map.json" "output"
             {[ "lxc/threat_map.json" := Sim.File "THREATS" ]}).1.1 = Return tt) as Hret.
  { vm_compute; reflexivity. }
  split; [vm_compute; reflexivity|]. split; [exact Hret|].
  rewrite (Hall Hret). vm_compute; reflexivity.
Defined.

(** X8.  When the threat map cannot be read or parsed, [visualize_calls]
    ends in that exception without starting a process or printing a line,
    but after the output directory was made: the directory exists in the
    world it leaves.  After a pipeline that returned, the workflow then
    ends with exit status 1 and without its closing line. *)
Theorem unreadable_threat_map_raises {FS} `{!Runtime FS}
  (lxc astviz code sbom out : string) (fs0 fs fs1 : FS)
  (evs0 : list (event FS)) (e : pyexc) :
  let tm := PosixPath.join lxc "threat_map.json" in
  ensure_mapping lxc code sbom (PosixPath.join lxc "risk_db.json")
    (PosixPath.join lxc "risk_db_llm.json") tm fs0 = (Return tt, fs, evs0) →
  (if fs_exists fs out then fs1 = fs else fs_makedirs fs out = inr fs1) →
  (fs_read_text fs1 tm = inl e ∨
   ∃ text, fs_read_text fs1 tm = inr text ∧ json_loads text = inl e) →
  visualize_calls astviz tm out fs = (Raised e, fs1, []) ∧
  fs_exists fs1 out = true ∧
  main lxc astviz code sbom out fs0 = (Raised e, fs1, evs0) ∧
  exit_status (main lxc astviz code sbom out fs0).1.1 = 1.
Proof.
  intros tm Hstages Hdir Hload.
  assert (visualize_calls astviz tm out fs = (Raised e, fs1, [])) as Hviz.
  { unfold visualize_calls.
    rewrite (bind_silent _ _ fs (fs_exists fs out)) by reflexivity.
    assert ((if negb (fs_exists fs out) then os_makedirs out else mret tt) fs
            = (Return tt, fs1, [])) as Hmk.
    { destruct (fs_exists fs out); simpl.
      - by subst fs1.
      - unfold os_makedirs. by rewrite Hdir. }
    rewrite (bind_quiet _ _ fs tt fs1 Hmk).
    rewrite bind_run. unfold json_load.
    destruct Hload as [-> | (text & -> & ->)]; reflexivity. }
  assert (main lxc astviz code sbom out fs0 = (Raised e, fs1, evs0)) as Hmain.
  { unfold main. cbv zeta. fold tm.
    rewrite bind_run, Hstages, bind_run, Hviz. by rewrite app_nil_r. }
  split; [exact Hviz|]. split; [by eapply ensured_dir_exists|].
  split; [exact Hmain|by rewrite Hmain].
Qed.

Lemma unreadable_threat_map_raises_witness :
  let fs0 : gmap string Sim.node :=
    <["lxc/risk_db.json" := Sim.File "{}"]>
      (<["lxc/risk_db_llm.json" := Sim.File "{}"]>
         {[ "lxc/threat_map.json" := Sim.File "not json" ]}) in
  let fs1 := <["output" := Sim.Dir]> fs0 in
  let evs0 : list (event (gmap string Sim.node)) :=
    [Stdout "Found existing risk DB: lxc/risk_db.json";
     Stdout "Found existing enriched DB: lxc/risk_db_llm.json";
     Stdout "Found existing threat map: lxc/threat_map.json"] in
  Sim.exists_ fs0 "output" = false ∧
  visualize_calls (Runtime0 := Sim.runtime Sim.tools_ok)
    "viz" "lxc/threat_map.json" "output" fs0
    = (Raised (OtherError "JSONDecodeError"), fs1, []) ∧
  Sim.exists_ fs1 "output" = true ∧
  main (Runtime0 := Sim.runtime Sim.tools_ok) "lxc" "viz" "code" "sbom.json" "output" fs0
    = (Raised (OtherError "JSONDecodeError"), fs1, evs0) ∧
  exit_status
    (main (Runtime0 := Sim.runtime Sim.tools_ok)
       "lxc" "viz" "code" "sbom.json" "output" fs0).1.1 = 1.
Proof.
  cbv zeta. split; [vm_compute; reflexivity|].
  apply (unreadable_threat_map_raises (Runtime0 := Sim.runtime Sim.tools_ok)
           "lxc" "viz" "code" "sbom.json" "output"
           (<["lxc/risk_db.json" := Sim.File "{}"]>
              (<["lxc/risk_db_llm.json" := Sim.File "{}"]>
                 {[ "lxc/threat_map.json" := Sim.File "not json" ]}))
           (<["lxc/risk_db.json" := Sim.File "{}"]>
              (<["lxc/risk_db_llm.json" := Sim.File "{}"]>
                 {[ "lxc/threat_map.json" := Sim.File "not json" ]}))).
  - vm_compute; reflexivity.
  - vm_compute; reflexivity.
  - right. exists "not json". split; vm_compute; reflexivity.
Defined.

(** X9.  A threat map that parses to something else than a list starts no
    process and prints nothing.  A number, a boolean or [null] cannot be
    iterated: [TypeError].  An object or a string is iterated over its keys
    or characters, which have no [get]: [AttributeError], unless it is empty,
    and then [visualize_calls] returns at once. *)
Theorem threat_map_not_a_list {FS} `{!Runtime FS}
  (ast tm out : string) (fs fs1 : FS) (text : string) (data : pyobj) :
  (if fs_exists fs out then fs1 = fs else fs_makedirs fs out = inr fs1) →
  fs_read_text fs1 tm = inr text →
  json_loads text = inr data →
  (∀ entries, data ≠ PyList entries) →
  visualize_calls ast tm out fs =
    (match data with
     | PyDict _ | PyStr _ => if truthy data then Raised AttributeError else Return tt
     | _ => Raised TypeError
     end, fs1, []).
Proof.
  intros Hdir Hread Hparse Hshape.
  rewrite (visualize_calls_loaded ast tm out fs fs1 text _ Hdir Hread Hparse).
  destruct data as [| | | |s|l|d]; try reflexivity.
  - by destruct s.
  - by destruct (Hshape l).
  - cbn [py_iter truthy]. rewrite lift_inr, <- length_map_to_list.
    by destruct (map_to_list d) as [|[k v] rest].
Qed.

Lemma threat_map_not_a_list_witness :
  let c : Sim.config :=
    {| Sim.status := λ _, 0; Sim.writes := λ _, None;
       Sim.json := [("ONE OBJECT",
                     PyDict (<["file" := PyStr "app/utils.py"]> {[ "api" := PyStr "eval" ]}))] |} in
  let fs : gmap string Sim.node :=
    <["output" := Sim.Dir]> {[ "lxc/threat_map.json" := Sim.File "ONE OBJECT" ]} in
  (∀ entries,
     PyDict (<["file" := PyStr "app/utils.py"]> {[ "api" := PyStr "eval" ]})
       ≠ PyList entries) ∧
  visualize_calls (Runtime0 := Sim.runtime c) "viz" "lxc/threat_map.json" "output" fs
    = (Raised AttributeError, fs, []).
Proof.
  cbv zeta. split; [done|].
  rewrite (threat_map_not_a_list
             (Runtime0 := Sim.runtime
                {| Sim.status := λ _, 0; Sim.writes := λ _, None;
                   Sim.json := [("ONE OBJECT",
                                 PyDict (<["file" := PyStr "app/utils.py"]>
                                           {[ "api" := PyStr "eval" ]}))] |})
             "viz" "lxc/threat_map.json" "output"
             (<["output" := Sim.Dir]> {[ "lxc/threat_map.json" := Sim.File "ONE OBJECT" ]})
             (<["output" := Sim.Dir]> {[ "lxc/threat_map.json" := Sim.File "ONE OBJECT" ]})
             "ONE OBJECT"
             (PyDict (<["file" := PyStr "app/utils.py"]> {[ "api" := PyStr "eval" ]}))).
  - vm_compute; reflexivity.
  - vm_compute; reflexivity.
  - vm_compute; reflexivity.
  - vm_compute; reflexivity.
  - done.
Defined.

(** ** The closing line *)

Section Closing.
Context {FS : Type} `{!Runtime FS}.

Lemma running_not_done cmd : @Stdout FS (running_line cmd) ≠ Stdout done_line.
Proof. discriminate. Qed.

Ltac not_done := first [ apply running_not_done | discriminate ].

Lemma ensure_mapping_not_done lxc code sbom risk enriched tm :
  Emits (λ ev : event FS, ev ≠ Stdout done_line)
    (ensure_mapping lxc code sbom risk enriched tm).
Proof.
  unfold ensure_mapping, stage_extract, stage_enrich, stage_map.
  repeat first
    [ apply emits_run_command; [not_done|intros ? ?; not_done|not_done]
    | apply emits_print; not_done
    | apply emits_exists | apply emits_if | apply emits_bind | intros ? ].
Qed.

Lemma visualize_calls_not_done ast tm out :
  Emits (λ ev : event FS, ev ≠ Stdout done_line) (visualize_calls ast tm out).
Proof.
  unfold visualize_calls, visualize_entry.
  repeat first
    [ apply emits_run_command; [not_done|intros ? ?; not_done|not_done]
    | apply emits_print; not_done
    | apply emits_ret | apply emits_lift | apply emits_exists
    | apply emits_makedirs | apply emits_json_load | apply emits_for_each
    | apply emits_if | apply emits_bind | intros ? ].
Qed.

End Closing.

(** X10.  The closing line of the workflow is printed exactly when the
    workflow returns normally, and then it is the last event and occurs
    nowhere before. *)
Theorem closing_line_means_success {FS} `{!Runtime FS}
  (lxc astviz code sbom out : string) (fs : FS) :
  match main lxc astviz code sbom out fs with
  | (o, _, evs) =>
      (Stdout done_line ∈ evs ↔ o = Return tt) ∧
      (o = Return tt →
       ∃ evs', evs = evs' ++ [Stdout done_line] ∧ Stdout done_line ∉ evs')
  end.
Proof.
  unfold main. cbv zeta. rewrite bind_run.
  pose proof (ensure_mapping_not_done lxc code sbom (PosixPath.join lxc "risk_db.json")
                (PosixPath.join lxc "risk_db_llm.json")
                (PosixPath.join lxc "threat_map.json") fs) as H1.
  destruct (ensure_mapping _ _ _ _ _ _ fs) as [[[[]|c|e] fs1] evs1]; simpl in H1.
  - rewrite bind_run.
    pose proof (visualize_calls_not_done astviz (PosixPath.join lxc "threat_map.json")
                  out fs1) as H2.
    destruct (visualize_calls _ _ _ fs1) as [[[[]|c|e] fs2] evs2]; simpl in H2.
    + cbn [print]. split.
      * split; [done|]. intros _. rewrite !elem_of_app, list_elem_of_singleton. auto.
      * intros _. exists (evs1 ++ evs2). split; [by rewrite app_assoc|].
        rewrite elem_of_app, !Forall_forall in *. intros [Hin|Hin].
        -- by apply (H1 _ Hin).
        -- by apply (H2 _ Hin).
    + split; [|done]. split; [|done].
      rewrite elem_of_app, !Forall_forall in *. intros [Hin|Hin].
      * by destruct (H1 _ Hin).
      * by destruct (H2 _ Hin).
    + split; [|done]. split; [|done].
      rewrite elem_of_app, !Forall_forall in *. intros [Hin|Hin].
      * by destruct (H1 _ Hin).
      * by destruct (H2 _ Hin).
  - split; [|done]. split; [|done].
    rewrite Forall_forall in H1. intros Hin. by destruct (H1 _ Hin).
  - split; [|done]. split; [|done].
    rewrite Forall_forall in H1. intros Hin. by destruct (H1 _ Hin).
Qed.

(** ** More on stripping *)

Lemma str_app_assoc (s t u : string) : (s +:+ t) +:+ u = s +:+ (t +:+ u).
Proof.
  induction s as [|a s IH]; [done|].
  change (String a ((s +:+ t) +:+ u) = String a (s +:+ (t +:+ u))). by rewrite IH.
Qed.

Section StripMore.
Variable chars : string.

Lemma all_in_app s t :
  PyStr.all_in chars (s +:+ t) = PyStr.all_in chars s && PyStr.all_in chars t.
Proof.
  induction s as [|a s IH]; [done|].
  change (PyStr.in_chars chars a && PyStr.all_in chars (s +:+ t) =
          PyStr.in_chars chars a && PyStr.all_in chars s && PyStr.all_in chars t).
  rewrite IH. by rewrite andb_assoc.
Qed.

Lemma lstrip_all_in s :
  PyStr.lstrip chars s = "" ↔ PyStr.all_in chars s = true.
Proof.
  induction s as [|a s IH]; simpl; [done|].
  destruct (PyStr.in_chars chars a); simpl; [done|]. split; discriminate.
Qed.

Lemma rstrip_all_in s :
  PyStr.all_in chars s = true → PyStr.rstrip chars s = "".
Proof.
  induction s as [|a s IH]; simpl; [done|].
  intros [Ha Hs]%andb_true_iff. by rewrite (IH Hs), Ha.
Qed.

Lemma lstrip_app_l pre s :
  PyStr.all_in chars pre = true →
  PyStr.lstrip chars (pre +:+ s) = PyStr.lstrip chars s.
Proof.
  induction pre as [|a pre IH]; [done|]. simpl.
  intros [Ha Hpre]%andb_true_iff.
  change (PyStr.lstrip chars (String a (pre +:+ s)) = PyStr.lstrip chars s).
  simpl. rewrite Ha. by apply IH.
Qed.

Lemma lstrip_app_r s t :
  PyStr.lstrip chars s ≠ "" →
  PyStr.lstrip chars (s +:+ t) = PyStr.lstrip chars s +:+ t.
Proof.
  induction s as [|a s IH]; [done|]. intros Hne.
  change (PyStr.lstrip chars (String a (s +:+ t))
          = PyStr.lstrip chars (String a s) +:+ t).
  simpl in Hne |- *. destruct (PyStr.in_chars chars a); [by apply IH|done].
Qed.

Lemma rstrip_app_r s post :
  PyStr.all_in chars post = true →
  PyStr.rstrip chars (s +:+ post) = PyStr.rstrip chars s.
Proof.
  intros Hpost. induction s as [|a s IH].
  - rewrite str_app_nil. by apply rstrip_all_in.
  - change (PyStr.rstrip chars (String a (s +:+ post))
            = PyStr.rstrip chars (String a s)).
    simpl. by rewrite IH.
Qed.

Lemma strip_absorbs pre s post :
  PyStr.all_in chars pre = true → PyStr.all_in chars post = true →
  PyStr.strip chars (pre +:+ s +:+ post) = PyStr.strip chars s.
Proof.
  intros Hpre Hpost. unfold PyStr.strip. rewrite (lstrip_app_l _ _ Hpre).
  destruct (PyStr.lstrip chars s) as [|b r] eqn:Hs.
  - apply lstrip_all_in in Hs.
    assert (PyStr.lstrip chars (s +:+ post) = "") as ->; [|done].
    apply lstrip_all_in. by rewrite all_in_app, Hs, Hpost.
  - rewrite lstrip_app_r by (by rewrite Hs). rewrite Hs.
    by apply rstrip_app_r.
Qed.

End StripMore.

(** X11.  Characters [^], [$] and [\] put before and after a pattern do not
    change its target: two patterns that differ in such a frame only are
    given the same target identifier. *)
Theorem anchors_do_not_change_target (pre pattern post : string) :
  PyStr.all_in "^$\" pre = true →
  PyStr.all_in "^$\" post = true →
  entry_target (pre +:+ pattern +:+ post) = entry_target pattern.
Proof. apply strip_absorbs. Qed.

Lemma anchors_do_not_change_target_witness :
  PyStr.all_in "^$\" "^" = true ∧
  PyStr.all_in "^$\" "\$" = true ∧
  entry_target ("^" +:+ "os\.system" +:+ "\$") = entry_target "os\.system".
Proof.
  split; [reflexivity|]. split; [reflexivity|].
  apply (anchors_do_not_change_target "^" "os\.system" "\$"); reflexivity.
Defined.

(** ** More on paths *)

Lemma len_app s t : PyStr.len (s +:+ t) = PyStr.len s + PyStr.len t.
Proof.
  induction s as [|a s IH]; [rewrite str_app_nil; unfold PyStr.len; simpl; lia|].
  change (PyStr.len (String a (s +:+ t)) = PyStr.len (String a s) + PyStr.len t).
  rewrite !len_cons, IH. lia.
Qed.

Lemma rfind_app_none c s t :
  PyStr.rfind c (s +:+ t) = -1 ↔ PyStr.rfind c s = -1 ∧ PyStr.rfind c t = -1.
Proof.
  induction s as [|a s IH].
  { rewrite str_app_nil. split; [intros Ht; by split|by intros [_ Ht]]. }
  change (PyStr.rfind c (String a (s +:+ t)) = -1 ↔
          PyStr.rfind c (String a s) = -1 ∧ PyStr.rfind c t = -1).
  pose proof (rfind_range c (s +:+ t)). pose proof (rfind_range c s).
  cbn [PyStr.rfind].
  destruct (0 <=? PyStr.rfind c (s +:+ t)) eqn:E1;
    destruct (0 <=? PyStr.rfind c s) eqn:E2;
    try apply Z.leb_le in E1; try apply Z.leb_gt in E1;
    try apply Z.leb_le in E2; try apply Z.leb_gt in E2;
    destruct (Ascii.eqb a c); split; intros; try lia;
    try (split; [lia|]); try (apply IH; lia);
    try (assert (PyStr.rfind c (s +:+ t) = -1) as Hk by lia; apply IH in Hk; lia).
Qed.

(** The last separator of [dir/name] is the one before [name] when [name]
    has none. *)
Lemma rfind_app_sep c s t :
  PyStr.rfind c t = -1 → PyStr.rfind c (s +:+ String c t) = PyStr.len s.
Proof.
  intros Ht. induction s as [|a s IH].
  - rewrite str_app_nil. cbn [PyStr.rfind]. rewrite Ht. simpl.
    by rewrite Ascii.eqb_refl.
  - change (PyStr.rfind c (String a (s +:+ String c t)) = PyStr.len (String a s)).
    cbn [PyStr.rfind]. rewrite IH, len_cons.
    pose proof (len_nonneg s).
    destruct (0 <=? PyStr.len s) eqn:E; [done|]. apply Z.leb_gt in E. lia.
Qed.

Lemma drop_app_sep c s t :
  PyStr.drop (S (String.length s)) (s +:+ String c t) = t.
Proof. induction s as [|a s IH]; [done|exact IH]. Qed.

Lemma basename_dir_name dir name :
  PyStr.rfind PosixPath.sep name = -1 →
  PosixPath.basename (dir +:+ String PosixPath.sep name) = name.
Proof.
  intros Hname. unfold PosixPath.basename, PyStr.from.
  rewrite (rfind_app_sep _ _ _ Hname).
  rewrite bound_inside.
  - replace (Z.to_nat (PyStr.len dir + 1)) with (S (String.length dir))
      by (unfold PyStr.len; lia).
    apply drop_app_sep.
  - rewrite len_app, len_cons. pose proof (len_nonneg dir). pose proof (len_nonneg name). lia.
Qed.

Lemma basename_name name :
  PyStr.rfind PosixPath.sep name = -1 → PosixPath.basename name = name.
Proof.
  intros Hname. unfold PosixPath.basename, PyStr.from. rewrite Hname.
  rewrite bound_inside by (pose proof (len_nonneg name); lia). done.
Qed.

Lemma endswith_split c a :
  PyStr.endswith c a = true → ∃ s, a = s +:+ String c "".
Proof.
  induction a as [|b a IH]; [done|].
  destruct a as [|b' a'].
  - simpl. intros ->%Ascii.eqb_eq. by exists "".
  - intros Hend. destruct (IH Hend) as [s Hs]. exists (String b s).
    change (String b (String b' a') = String b (s +:+ String c "")). by rewrite Hs.
Qed.

Lemma basename_join out name :
  PyStr.rfind PosixPath.sep name = -1 →
  PosixPath.basename (PosixPath.join out name) = name.
Proof.
  intros Hname. unfold PosixPath.join.
  rewrite (rfind_none_startswith _ _ Hname).
  destruct (String.eqb out "") eqn:Hout; simpl.
  { apply String.eqb_eq in Hout. subst out. rewrite str_app_nil.
    by apply basename_name. }
  destruct (PyStr.endswith PosixPath.sep out) eqn:Hend.
  - apply endswith_split in Hend as [s ->].
    rewrite str_app_assoc. by apply basename_dir_name.
  - by apply (basename_dir_name out name).
Qed.

(** X12.  The image path does not depend on the directory of the source
    file: an entry for [dir/name] gets the base name, and so (for the same
    pattern) the image path, of an entry for [name].  Files of the same
    name in different directories are written to the same image. *)
Theorem image_path_ignores_directory (out dir name api : string) :
  PyStr.rfind "/" name = -1 →
  entry_base_name (dir +:+ "/" +:+ name) = entry_base_name name ∧
  entry_out_png out (dir +:+ "/" +:+ name) api = entry_out_png out name api.
Proof.
  intros Hname.
  assert (entry_base_name (dir +:+ "/" +:+ name) = entry_base_name name) as Hbase.
  { unfold entry_base_name.
    change (dir +:+ "/" +:+ name) with (dir +:+ String PosixPath.sep name).
    by rewrite (basename_dir_name dir name Hname), (basename_name name Hname). }
  split; [exact Hbase|]. unfold entry_out_png. by rewrite Hbase.
Qed.

Lemma image_path_ignores_directory_witness :
  PyStr.rfind "/" "utils.py" = -1 ∧
  entry_base_name ("app" +:+ "/" +:+ "utils.py") = entry_base_name "utils.py" ∧
  entry_out_png "output" ("app" +:+ "/" +:+ "utils.py") "^eval$"
    = entry_out_png "output" "utils.py" "^eval$".
Proof.
  split; [reflexivity|].
  apply (image_path_ignores_directory "output" "app" "utils.py" "^eval$").
  reflexivity.
Defined.

(** X13.  When the target identifier of an entry contains no slash, the
    image is a file directly in the output directory: the last component of
    the image path is [<base>_<target>.png]. *)
Theorem image_is_inside_output_dir (out file_path api : string) :
  PyStr.rfind "/" (entry_target api) = -1 →
  PosixPath.basename (entry_out_png out file_path api) =
    entry_base_name file_path +:+ "_" +:+ entry_target api +:+ ".png".
Proof.
  intros Htarget. unfold entry_out_png. apply basename_join.
  apply rfind_app_none. split.
  - pose proof (basename_no_sep file_path) as Hbn.
    rewrite <- (splitext_app (PosixPath.basename file_path)) in Hbn.
    by apply rfind_app_none in Hbn as [Hbase _].
  - apply (rfind_app_none _ "_"). split; [done|].
    apply rfind_app_none. by split.
Qed.

Lemma image_is_inside_output_dir_witness :
  PyStr.rfind "/" (entry_target "^eval$") = -1 ∧
  PosixPath.basename (entry_out_png "output" "app/utils.py" "^eval$") =
    entry_base_name "app/utils.py" +:+ "_" +:+ entry_target "^eval$" +:+ ".png".
Proof.
  split; [reflexivity|].
  apply (image_is_inside_output_dir "output" "app/utils.py" "^eval$"). reflexivity.
Defined.

(** A target with a slash in it takes the image elsewhere. *)
Example image_outside_output_dir :
  entry_out_png "output" "app/utils.py" "^pkg/run$" = "output/utils_pkg/run.png" ∧
  PosixPath.basename (entry_out_png "output" "app/utils.py" "^pkg/run$") = "run.png".
Proof. split; reflexivity. Qed.

(** ** The workflow as a whole *)

(** X14.  The workflow starts no other process than these: the extraction,
    enrichment and mapping tools, each with the fixed artifact names inside
    the repository directory as arguments and with that directory as
    working directory; and the visualizer of the AST repository, in the
    caller's working directory. *)
Theorem workflow_starts_only_its_tools {FS} `{!Runtime FS}
  (lxc astviz code sbom out : string) (fs : FS) :
  Forall (workflow_process lxc astviz code sbom) (main lxc astviz code sbom out fs).2.
Proof.
  revert fs. change (Emits (workflow_process lxc astviz code sbom)
                       (main lxc astviz code sbom out)).
  unfold main, ensure_mapping, stage_extract, stage_enrich, stage_map,
    visualize_calls, visualize_entry. cbv zeta.
  repeat first
    [ apply emits_run_command;
        [done
        |intros ? ?; simpl;
         first [ left; split; [done|]; by auto | right; split; [done|]; by eauto ]
        |done]
    | by apply emits_print
    | apply emits_ret | apply emits_lift | apply emits_exists
    | apply emits_makedirs | apply emits_json_load | apply emits_for_each
    | apply emits_if | apply emits_bind | intros ? ].
Qed.

Section Rerun.
Context {FS : Type} `{!Runtime FS}.

(** A sequence that returns: both parts returned. *)
Lemma bind_return_inv {A B} (m : prog FS A) (k : A → prog FS B) fs b fs' evs :
  (m ≫= k) fs = (Return b, fs', evs) →
  ∃ a fs1 evs1 evs2,
    m fs = (Return a, fs1, evs1) ∧ k a fs1 = (Return b, fs', evs2) ∧
    evs = evs1 ++ evs2.
Proof.
  rewrite bind_run.
  destruct (m fs) as [[[a|c|e] fs1] evs1]; [|discriminate..].
  destruct (k a fs1) as [[o fs2] evs2] eqn:Ek. intros [= -> <- <-].
  by exists a, fs1, evs1, evs2.
Qed.

Lemma gate_keeps p cmd cwd line (fs fs1 : FS) o evs q :
  keeps_files →
  gate p cmd cwd line fs = (o, fs1, evs) →
  fs_exists fs q = true → fs_exists fs1 q = true.
Proof.
  intros Hkeep. rewrite gate_run, run_command_run. cbv zeta.
  destruct (fs_exists fs p); [by intros [= <- <- <-]|].
  destruct (spawn fs cmd cwd) as [e|[c fs2]] eqn:Hs; [by intros [= <- <- <-]|].
  destruct (c =? 0); intros [= <- <- <-]; by eapply Hkeep.
Qed.

End Rerun.

(** X15.  Running the pipeline again after it returned starts nothing,
    provided the three tools leave their output in existence when they end
    in status 0 and no process removes what exists: the second run finds
    all three artifacts, prints its three lines and changes nothing. *)
Theorem second_run_starts_nothing {FS} `{!Runtime FS}
  (c : paths) (fs fs1 : FS) (evs1 : list (event FS)) :
  keeps_files →
  (∀ s, writes_output (stage_cmd c s) (Some (lxc_path c)) (stage_artifact c s)) →
  ensure_mapping (lxc_path c) (code_path c) (sbom_path c)
    (risk_db c) (enriched_db c) (threat_map c) fs = (Return tt, fs1, evs1) →
  ensure_mapping (lxc_path c) (code_path c) (sbom_path c)
    (risk_db c) (enriched_db c) (threat_map c) fs1 =
  (Return tt, fs1,
   [Stdout (stage_found_line c Extract); Stdout (stage_found_line c Enrich);
    Stdout (stage_found_line c Map)]).
Proof.
  intros Hkeep Hwrites Hrun.
  enough (∀ s, fs_exists fs1 (stage_artifact c s) = true) as Hall.
  { rewrite ensure_mapping_stages.
    rewrite bind_run, !run_stage_gate, gate_run, (Hall Extract).
    rewrite bind_run, gate_run, (Hall Enrich).
    by rewrite gate_run, (Hall Map). }
  rewrite ensure_mapping_stages, !run_stage_gate in Hrun.
  apply bind_return_inv in Hrun as ([] & fsa & evsa & evsr & Ha & Hrun & ->).
  apply bind_return_inv in Hrun as ([] & fsb & evsb & evsc & Hb & Hc & ->).
  pose proof (gate_done _ _ _ _ _ _ _ (Hwrites Extract) Ha) as H1.
  pose proof (gate_done _ _ _ _ _ _ _ (Hwrites Enrich) Hb) as H2.
  pose proof (gate_done _ _ _ _ _ _ _ (Hwrites Map) Hc) as H3.
  intros [].
  - eapply gate_keeps; [done|exact Hc|]. eapply gate_keeps; [done|exact Hb|done].
  - eapply gate_keeps; [done|exact Hc|done].
  - done.
Qed.

Lemma sim_keeps_files (c : Sim.config) : keeps_files (Runtime0 := Sim.runtime c).
Proof.
  intros fs fs' cmd cwd rc p.
  change (spawn fs cmd cwd) with (Sim.run c fs cmd cwd).
  change (fs_exists fs p) with (Sim.exists_ fs p).
  change (fs_exists fs' p) with (Sim.exists_ fs' p).
  unfold Sim.run, Sim.exists_.
  destruct cmd as [|py [|script rest]]; [discriminate..|].
  destruct (Sim.status c script =? 0).
  - destruct (Sim.writes c script) as [content|],
      (Sim.out_path (py :: script :: rest)) as [q|];
      intros [= <- <-]; try done.
    destruct (decide (q = p)) as [->|Hne].
    + by rewrite lookup_insert_eq.
    + by rewrite lookup_insert_ne.
  - by intros [= <- <-].
Qed.

Lemma second_run_starts_nothing_witness :
  let c := {| lxc_path := "lxc"; code_path := "code"; sbom_path := "sbom.json";
              risk_db := "lxc/risk_db.json"; enriched_db := "lxc/risk_db_llm.json";
              threat_map := "lxc/threat_map.json" |} in
  let fs1 : gmap string Sim.node :=
    (ensure_mapping (Runtime0 := Sim.runtime Sim.tools_ok)
       "lxc" "code" "sbom.json" "lxc/risk_db.json" "lxc/risk_db_llm.json"
       "lxc/threat_map.json" ∅).1.2 in
  spawned
    (ensure_mapping (Runtime0 := Sim.runtime Sim.tools_ok)
       "lxc" "code" "sbom.json" "lxc/risk_db.json" "lxc/risk_db_llm.json"
       "lxc/threat_map.json" ∅).2
    = [stage_cmd (Runtime0 := Sim.runtime Sim.tools_ok) c Extract;
       stage_cmd (Runtime0 := Sim.runtime Sim.tools_ok) c Enrich;
       stage_cmd (Runtime0 := Sim.runtime Sim.tools_ok) c Map] ∧
  ensure_mapping (Runtime0 := Sim.runtime Sim.tools_ok)
    "lxc" "code" "sbom.json" "lxc/risk_db.json" "lxc/risk_db_llm.json"
    "lxc/threat_map.json" fs1 =
  (Return tt, fs1,
   [Stdout "Found existing risk DB: lxc/risk_db.json";
    Stdout "Found existing enriched DB: lxc/risk_db_llm.json";
    Stdout "Found existing threat map: lxc/threat_map.json"]).
Proof.
  cbv zeta. split; [vm_compute; reflexivity|].
  apply (second_run_starts_nothing (Runtime0 := Sim.runtime Sim.tools_ok)
           {| lxc_path := "lxc"; code_path := "code"; sbom_path := "sbom.json";
              risk_db := "lxc/risk_db.json"; enriched_db := "lxc/risk_db_llm.json";
              threat_map := "lxc/threat_map.json" |} ∅ _
           (ensure_mapping (Runtime0 := Sim.runtime Sim.tools_ok)
              "lxc" "code" "sbom.json" "lxc/risk_db.json" "lxc/risk_db_llm.json"
              "lxc/threat_map.json" ∅).2).
  - apply sim_keeps_files.
  - intros []; [by apply (sim_tool_writes_output Sim.tools_ok _ _ _ _ _ "{}")
               |by apply (sim_tool_writes_output Sim.tools_ok _ _ _ _ _ "{}")
               |by apply (sim_tool_writes_output Sim.tools_ok _ _ _ _ _ "THREATS")].
  - vm_compute; reflexivity.
Defined.

(** ** Reporting the diagrams *)

Section Reporting.
Context {FS : Type} `{!Runtime FS}.

Lemma reported_app_bounded (n : nat) (evs1 evs2 : list (event FS)) :
  (length evs1 ≤ n)%nat → reported evs1 → reported evs2 → reported (evs1 ++ evs2).
Proof.
  revert evs1. induction n as [|n IH]; intros [|ev evs1] Hlen H1 H2;
    try done; simpl in Hlen; [lia|].
  destruct ev as [line|line|cmd cwd before [e|[|c|c]]];
    try (simpl in H1 |- *; apply IH; [lia|done..]).
  destruct evs1 as [|[next| |] evs1]; simpl in H1 |- *; try done.
  destruct H1 as [Hline H1]. split; [done|].
  apply IH; [simpl in Hlen; lia|done..].
Qed.

Lemma reported_app (evs1 evs2 : list (event FS)) :
  reported evs1 → reported evs2 → reported (evs1 ++ evs2).
Proof. by apply (reported_app_bounded (length evs1)). Qed.

Lemma reported_split_bounded (n : nat) (pre post : list (event FS)) cmd cwd before :
  (length pre ≤ n)%nat →
  reported (pre ++ Spawn cmd cwd before (inr 0) :: post) →
  ∃ post', post = Stdout ("Generated diagram: " +:+ default "" (last cmd)) :: post'.
Proof.
  revert pre. induction n as [|n IH]; intros [|ev pre] Hlen Hrep;
    simpl in Hlen; try lia.
  - destruct post as [|[next| |] post]; try done.
    destruct Hrep as [-> _]. by eexists.
  - destruct post as [|[next| |] post]; try done.
    destruct Hrep as [-> _]. by eexists.
  - destruct ev as [line|line|cmd' cwd' before' [e|[|c|c]]];
      try (simpl in Hrep; apply (IH pre); [lia|done]).
    destruct pre as [|[next| |] pre]; simpl in Hrep; try done.
    destruct Hrep as [_ Hrep]. apply (IH pre); [simpl in Hlen; lia|done].
Qed.

Lemma reported_bind {A B} (m : prog FS A) (k : A → prog FS B) :
  (∀ fs, reported (m fs).2) → (∀ a fs, reported (k a fs).2) →
  ∀ fs, reported ((m ≫= k) fs).2.
Proof.
  intros Hm Hk fs. rewrite bind_run. specialize (Hm fs).
  destruct (m fs) as [[[a|c|e] fs1] evs1]; [|done..].
  specialize (Hk a fs1). destruct (k a fs1) as [[o fs2] evs2].
  by apply reported_app.
Qed.

Lemma reported_visualize_entry ast out e (fs : FS) :
  reported (visualize_entry ast out e fs).2.
Proof.
  destruct (entry_cmd ast out e) as [cmd|] eqn:Ecmd.
  - apply entry_cmd_valid in Ecmd as (d & f & a & cr & -> & Hvalid & ->).
    rewrite (visualize_entry_valid ast out d f a cr fs Hvalid).
    rewrite bind_run, run_command_run. cbv zeta.
    destruct (spawn fs _ None) as [err|[c fs1]]; [done|].
    destruct (c =? 0) eqn:Hc.
    + apply Z.eqb_eq in Hc. subst c. by split.
    + apply Z.eqb_neq in Hc. by destruct c.
  - by destruct (visualize_entry_no_cmd ast out e fs Ecmd) as (o & -> & _).
Qed.

Lemma reported_for_each ast out (entries : list pyobj) (fs : FS) :
  reported (for_each entries (visualize_entry ast out) fs).2.
Proof.
  revert fs. induction entries as [|e entries IH]; intros fs; [done|].
  apply (reported_bind (visualize_entry ast out e)
           (λ _, for_each entries (visualize_entry ast out))).
  - apply reported_visualize_entry.
  - intros _. apply IH.
Qed.

Lemma reported_visualize_calls ast tm out (fs : FS) :
  reported (visualize_calls ast tm out fs).2.
Proof.
  unfold visualize_calls.
  apply reported_bind; [done|intros found fs1].
  apply reported_bind.
  { intros fs2. destruct (negb found); [|done].
    unfold os_makedirs. by destruct (fs_makedirs fs2 out). }
  intros _ fs2. apply reported_bind.
  { intros fs3. unfold json_load.
    destruct (fs_read_text fs3 tm) as [e|text]; [done|]. by destruct (json_loads text). }
  intros data fs3. apply reported_bind.
  { intros fs4. by destruct (py_iter data). }
  intros entries fs4. apply reported_for_each.
Qed.

Lemma visualize_calls_commands ast tm out :
  Emits (λ ev : event FS,
           match ev with
           | Spawn cmd cwd _ _ =>
               cwd = None ∧
               ∃ abs_file target_name out_png,
                 cmd = visualize_cmd ast abs_file target_name out_png
           | _ => True
           end)
    (visualize_calls ast tm out).
Proof.
  unfold visualize_calls, visualize_entry.
  repeat first
    [ apply emits_run_command; [done|intros ? ?; split; [done|]; by eauto|done]
    | by apply emits_print
    | apply emits_ret | apply emits_lift | apply emits_exists
    | apply emits_makedirs | apply emits_json_load | apply emits_for_each
    | apply emits_if | apply emits_bind | intros ? ].
Qed.

End Reporting.

(** X16.  In every run of [visualize_calls], a process that ended in status
    0 is a visualizer command, and the event right after it is the line
    [Generated diagram: <path>] with the image path the command was given
    after [-o]. *)
Theorem successful_diagram_is_reported {FS} `{!Runtime FS}
  (ast tm out : string) (fs : FS) (pre post : list (event FS))
  (cmd : list string) (cwd : option string) (before : FS) :
  (visualize_calls ast tm out fs).2 = pre ++ Spawn cmd cwd before (inr 0) :: post →
  ∃ abs_file target_name out_png post',
    cmd = visualize_cmd ast abs_file target_name out_png ∧
    post = Stdout ("Generated diagram: " +:+ out_png) :: post'.
Proof.
  intros Hevs.
  pose proof (reported_visualize_calls ast tm out fs) as Hrep.
  pose proof (visualize_calls_commands ast tm out fs) as Hcmds.
  rewrite Hevs in Hrep, Hcmds.
  apply (reported_split_bounded (length pre)) in Hrep as [post' ->]; [|done].
  apply Forall_app in Hcmds as [_ Hcmds].
  apply Forall_cons in Hcmds as [[_ (abs_file & target_name & out_png & ->)] _].
  by exists abs_file, target_name, out_png, post'.
Qed.

Lemma successful_diagram_is_reported_witness :
  let fs : gmap string Sim.node := {[ "lxc/threat_map.json" := Sim.File "THREATS" ]} in
  let evs :=
    (visualize_calls (Runtime0 := Sim.runtime Sim.tools_ok)
       "viz" "lxc/threat_map.json" "output" fs).2 in
  let cmd := ["python3"; "viz/astvisualizer.py"; "-f"; "app/utils.py"; "--target"; "eval";
              "-o"; "output/utils_eval.png"] in
  evs = take 1 evs ++ Spawn cmd None (<["output" := Sim.Dir]> fs) (inr 0) :: drop 2 evs ∧
  ∃ abs_file target_name out_png post',
    cmd = visualize_cmd (Runtime0 := Sim.runtime Sim.tools_ok)
            "viz" abs_file target_name out_png ∧
    drop 2 evs = Stdout ("Generated diagram: " +:+ out_png) :: post'.
Proof.
  cbv zeta. split; [vm_compute; reflexivity|].
  apply (successful_diagram_is_reported (Runtime0 := Sim.runtime Sim.tools_ok)
           "viz" "lxc/threat_map.json" "output"
           {[ "lxc/threat_map.json" := Sim.File "THREATS" ]}
           (take 1 (visualize_calls (Runtime0 := Sim.runtime Sim.tools_ok)
                      "viz" "lxc/threat_map.json" "output"
                      {[ "lxc/threat_map.json" := Sim.File "THREATS" ]}).2)
           _ _ None
           (<["output" := Sim.Dir]> {[ "lxc/threat_map.json" := Sim.File "THREATS" ]})).
  vm_compute; reflexivity.
Defined.
